(** * foxess_modbus: the poll-based serial transport

    A shallow embedding of
    [custom_components/foxess_modbus/client/protocol_pollserial.py]
    (class [Serial], methods [read] and [write]) together with a small model
    of the operating-system services the two methods call, and the
    properties of the transport stated and proved over that embedding.

    Conventions.
    - Time is the monotonic clock in whole microseconds; a configured
      timeout is [None] (block for ever), [Some 0] (non-blocking) or
      [Some d] with [d] microseconds.
    - A Python exception is a value of [exn]; a call ends in one of the
      [outcome]s: a normal return, a raised exception, a wait that never
      ends, or (for the loops only) exhausted fuel.
    - The operating system is a [World]: the clock, the two abort pipes,
      the scripted behaviour of the device and the log of the system
      calls performed so far. *)

From Stdlib Require Import ZArith List String Ascii Bool Lia DecimalString.
Import ListNotations.
Local Open Scope string_scope.
Local Open Scope list_scope.
Local Open Scope Z_scope.

Set Implicit Arguments.

(** ** Bytes *)

Definition bytes := list Byte.byte.

Definition len (b : bytes) : Z := Z.of_nat (List.length b).

(** [b[:n]] and [b[n:]] of Python for [0 <= n]. *)
Definition take_bytes (n : Z) (b : bytes) : bytes := firstn (Z.to_nat n) b.
Definition drop_bytes (n : Z) (b : bytes) : bytes := skipn (Z.to_nat n) b.

(** ** Exceptions

    The classes come from [serial.serialutil]: [SerialException] derives
    from [IOError], which Python 3 makes another name of [OSError];
    [SerialTimeoutException] and [PortNotOpenError] derive from
    [SerialException].  So every exception of this development is an
    instance of [OSError], and only the ones the operating system raises
    carry an [errno]. *)

Inductive exn : Type :=
| PortNotOpenError
| SerialException (msg : string)
| SerialTimeoutException (msg : string)
| OSError (errno : Z) (strerror : string).

(** [isinstance(e, OSError)] *)
Definition isinstance_OSError (e : exn) : bool :=
  match e with
  | PortNotOpenError => true
  | SerialException _ => true
  | SerialTimeoutException _ => true
  | OSError _ _ => true
  end.

(** [e.errno]: [None] unless the exception was built from an error number. *)
Definition exn_errno (e : exn) : option Z :=
  match e with
  | OSError n _ => Some n
  | _ => None
  end.

Definition decimal (n : Z) : string := NilZero.string_of_int (Z.to_int n).

(** [str(e)] *)
Definition str (e : exn) : string :=
  match e with
  | PortNotOpenError => "Attempting to use a port that is not open"
  | SerialException m => m
  | SerialTimeoutException m => m
  | OSError n s => ("[Errno " ++ decimal n ++ "] " ++ s)%string
  end.

(** The error numbers [write] tolerates (Linux values; [EWOULDBLOCK] is
    [EAGAIN] there). *)
Module errno.
Definition EINTR : Z := 4.
Definition EIO : Z := 5.
Definition EBADF : Z := 9.
Definition EAGAIN : Z := 11.
Definition EWOULDBLOCK : Z := 11.
Definition EALREADY : Z := 114.
Definition EINPROGRESS : Z := 115.
End errno.

(** [e.errno in (EAGAIN, EALREADY, EWOULDBLOCK, EINPROGRESS, EINTR)] *)
Definition errno_is_transient (e : option Z) : bool :=
  match e with
  | None => false
  | Some n =>
      (n =? errno.EAGAIN) || (n =? errno.EALREADY) || (n =? errno.EWOULDBLOCK)
      || (n =? errno.EINPROGRESS) || (n =? errno.EINTR)
  end.

(** ** Outcomes and the monad of system calls *)

Inductive outcome (A : Type) : Type :=
| Ok (a : A)            (* normal completion *)
| Raise (e : exn)       (* an exception propagates *)
| Blocked               (* a wait with no timeout that nothing ever ends *)
| OutOfFuel.            (* the loop was cut by the model, not by the code *)

Arguments Ok {A} a.
Arguments Raise {A} e.
Arguments Blocked {A}.
Arguments OutOfFuel {A}.

(** ** The operating system *)

(** The event bits of [poll] (Linux values). *)
Module select.
Definition POLLIN : Z := 1.
Definition POLLOUT : Z := 4.
Definition POLLERR : Z := 8.
Definition POLLHUP : Z := 16.
Definition POLLNVAL : Z := 32.
End select.

(** [select.POLLERR | select.POLLHUP | select.POLLNVAL] *)
Definition POLL_ERRORS : Z :=
  Z.lor (Z.lor select.POLLERR select.POLLHUP) select.POLLNVAL.

(** What happens while one [poll] call waits. *)
Record Round : Type := mkRound {
  elapsed : Z;          (* microseconds until the wait ends *)
  dev_revents : Z;      (* the condition bits the device then shows *)
  cancel_read : nat;    (* bytes other threads put in the read-abort pipe *)
  cancel_write : nat    (* bytes other threads put in the write-abort pipe *)
}.

(** How the device answers one [os.write]. *)
Inductive WriteAnswer : Type :=
| Accept (took : Z) (n : Z)                    (* [n] bytes taken, [took] microseconds *)
| Fail (took : Z) (errno : Z) (strerror : string).

(** The log of system calls. *)
Inductive Syscall : Type :=
| SysPoll (timeout : option Z) (events : list (Z * Z))
| SysPollForever
| SysRead (fd : Z) (n : Z) (got : bytes)
| SysWriteOk (fd : Z) (data : bytes) (n : Z)
| SysWriteErr (fd : Z) (data : bytes) (errno : Z).

Record World : Type := mkWorld {
  clock : Z;                    (* [time.monotonic()], microseconds *)
  abort_read_pending : bytes;   (* unread bytes of the read-abort pipe *)
  abort_write_pending : bytes;  (* unread bytes of the write-abort pipe *)
  polls : list Round;           (* the coming waits *)
  reads : list bytes;           (* the chunks the device will hand out *)
  writes : list WriteAnswer;    (* the answers to the coming device writes *)
  trace : list Syscall          (* system calls so far, oldest first *)
}.

Definition M (A : Type) : Type := World -> outcome A * World.

Definition ret {A} (a : A) : M A := fun w => (Ok a, w).
Definition raise {A} (e : exn) : M A := fun w => (Raise e, w).

Definition bind {A B} (c : M A) (k : A -> M B) : M B :=
  fun w =>
    match c w with
    | (Ok a, w') => k a w'
    | (Raise e, w') => (Raise e, w')
    | (Blocked, w') => (Blocked, w')
    | (OutOfFuel, w') => (OutOfFuel, w')
    end.

Notation "x <- c ;; k" := (bind c (fun x => k))
  (at level 61, c at next level, right associativity).
Notation "c ;;; k" := (bind c (fun _ => k))
  (at level 61, right associativity).

Definition log (e : Syscall) (w : World) : World :=
  mkWorld (clock w) (abort_read_pending w) (abort_write_pending w)
          (polls w) (reads w) (writes w) (trace w ++ [e]).

(** ** The port object *)

Record Serial : Type := mkSerial {
  is_open : bool;
  fd : Z;
  pipe_abort_read_r : Z;
  pipe_abort_write_r : Z;
  _timeout : option Z;
  _write_timeout : option Z;
  _inter_byte_timeout : option Z
}.

(** The three descriptors of a port are three different numbers. *)
Definition distinct_fds (s : Serial) : Prop :=
  fd s <> pipe_abort_read_r s /\ fd s <> pipe_abort_write_r s
  /\ pipe_abort_read_r s <> pipe_abort_write_r s.

(** Truth value of [self._inter_byte_timeout]: [None] and [0] are false. *)
Definition truthy (t : option Z) : bool :=
  match t with
  | None => false
  | Some d => negb (d =? 0)
  end.

(** ** System calls

    Modelled from the spec: the operating-system binding layer ([os.read],
    [os.write], [select.poll], [time.monotonic]) is not part of the
    repository; the spec's section 6 lists what is consumed from it:
    poll-style readiness waits over a set of descriptors with event masks,
    raw byte reads and writes on a descriptor, and the signalling pipes.
    The port [s] says which descriptor number names which kernel object. *)

(** [time.monotonic()] *)
Definition time_monotonic : M Z := fun w => (Ok (clock w), w).

(** The bytes one cancellation puts in an abort pipe, [n] times. *)
Definition signals (n : nat) : bytes := repeat Byte.x78 n.

(** [os.read(desc, n)]: at most [n] bytes.  A pipe gives its oldest pending
    bytes; the device gives the start of its next chunk and keeps the
    rest of that chunk for the next read.  A read of an open descriptor
    is taken not to fail with a system error, and so is [poll] below:
    nothing here says what [read], which has no handler, lets through
    when they do. *)
Definition os_read (s : Serial) (desc n : Z) : M bytes := fun w =>
  if desc =? pipe_abort_read_r s then
    let got := take_bytes n (abort_read_pending w) in
    (Ok got,
     log (SysRead desc n got)
       (mkWorld (clock w) (drop_bytes n (abort_read_pending w))
                (abort_write_pending w) (polls w) (reads w) (writes w) (trace w)))
  else if desc =? pipe_abort_write_r s then
    let got := take_bytes n (abort_write_pending w) in
    (Ok got,
     log (SysRead desc n got)
       (mkWorld (clock w) (abort_read_pending w)
                (drop_bytes n (abort_write_pending w)) (polls w) (reads w)
                (writes w) (trace w)))
  else if desc =? fd s then
    match reads w with
    | [] => (Ok [], log (SysRead desc n []) w)
    | chunk :: rest =>
        let got := take_bytes n chunk in
        let later := match drop_bytes n chunk with [] => rest | l => l :: rest end in
        (Ok got,
         log (SysRead desc n got)
           (mkWorld (clock w) (abort_read_pending w) (abort_write_pending w)
                    (polls w) later (writes w) (trace w)))
    end
  else (Raise (OSError errno.EBADF "Bad file descriptor"), w).

(** The answer the device gives to the next write of [data]: the next one
    of the script; a device whose script is over takes everything. *)
Definition next_answer (data : bytes) (w : World) : WriteAnswer :=
  match writes w with
  | [] => Accept 0 (len data)
  | a :: _ => a
  end.

(** The world once a device write of [data] has lasted [took] and is
    logged as [e]. *)
Definition after_write (took : Z) (e : Syscall) (w : World) : World :=
  log e (mkWorld (clock w + Z.max 0 took) (abort_read_pending w)
                 (abort_write_pending w) (polls w) (reads w) (tl (writes w))
                 (trace w)).

(** [os.write(desc, data)] on the device: the number of bytes taken, never
    more than offered, or an [OSError]. *)
Definition os_write (s : Serial) (desc : Z) (data : bytes) : M Z := fun w =>
  if desc =? fd s then
    match next_answer data w with
    | Accept took k =>
        let n := Z.max 0 (Z.min k (len data)) in
        (Ok n, after_write took (SysWriteOk desc data n) w)
    | Fail took e msg =>
        (Raise (OSError e msg), after_write took (SysWriteErr desc data e) w)
    end
  else (Raise (OSError errno.EBADF "Bad file descriptor"), w).

(** *** The poll object *)

(** [poll.register(desc, eventmask)]: the object keeps its descriptors in
    the order of their first registration. *)
Fixpoint register (poll : list (Z * Z)) (desc eventmask : Z) : list (Z * Z) :=
  match poll with
  | [] => [(desc, eventmask)]
  | (d, m) :: rest =>
      if d =? desc then (desc, eventmask) :: rest
      else (d, m) :: register rest desc eventmask
  end.

(** A round in which nothing happens. *)
Definition quiet : Round := mkRound 0 0 0 0.

(** The world once the cancellations of round [r] are in the pipes and the
    round is off the script. *)
Definition after_cancels (r : Round) (w : World) : World :=
  mkWorld (clock w)
          (abort_read_pending w ++ signals (cancel_read r))
          (abort_write_pending w ++ signals (cancel_write r))
          (tl (polls w)) (reads w) (writes w) (trace w).

(** A pipe is readable as long as it holds a byte. *)
Definition pipe_level (pending : bytes) : Z :=
  match pending with
  | [] => 0
  | _ :: _ => select.POLLIN
  end.

(** What [poll] reports for the device in round [r]: of the requested
    events those that hold, and the error conditions whether requested
    or not. *)
Definition dev_event (r : Round) (eventmask : Z) : Z :=
  Z.land (Z.lor eventmask POLL_ERRORS) (dev_revents r).

(** What [poll] reports for a pipe with [pending] in it. *)
Definition pipe_event (pending : bytes) (eventmask : Z) : Z :=
  Z.land eventmask (pipe_level pending).

(** What [poll] reports for one registered descriptor; a number that
    names nothing is an invalid descriptor. *)
Definition revents (s : Serial) (r : Round) (w : World) (desc eventmask : Z) : Z :=
  if desc =? pipe_abort_read_r s then pipe_event (abort_read_pending w) eventmask
  else if desc =? pipe_abort_write_r s then pipe_event (abort_write_pending w) eventmask
  else if desc =? fd s then dev_event r eventmask
  else select.POLLNVAL.

(** The [(fd, event)] pairs of the descriptors with something to report,
    in registration order. *)
Fixpoint ready (s : Serial) (r : Round) (w : World) (poll : list (Z * Z))
  : list (Z * Z) :=
  match poll with
  | [] => []
  | (d, m) :: rest =>
      let ev := revents s r w d m in
      if ev =? 0 then ready s r w rest else (d, ev) :: ready s r w rest
  end.

(** The world [dt] microseconds later. *)
Definition advance (dt : Z) (w : World) : World :=
  mkWorld (clock w + dt) (abort_read_pending w) (abort_write_pending w)
          (polls w) (reads w) (writes w) (trace w).

(** How long one [poll] call lasts, in microseconds: with nothing to
    report the whole timeout, otherwise until the round ends and not
    longer than the timeout. *)
Definition poll_time (r : Round) (events : list (Z * Z)) (timeout : option Z) : Z :=
  match timeout, events with
  | None, _ => Z.max 0 (elapsed r)
  | Some ms, [] => Z.max 0 ms * 1000
  | Some ms, _ :: _ => Z.max 0 (Z.min (elapsed r) (ms * 1000))
  end.

(** The round the next [poll] call takes; a script that is over goes on
    with rounds in which nothing happens. *)
Definition next_round (w : World) : Round :=
  match polls w with
  | [] => quiet
  | r :: _ => r
  end.

(** The world once a [poll] call has returned [events]. *)
Definition after_poll (timeout : option Z) (events : list (Z * Z)) (w : World)
  : World :=
  let r := next_round w in
  log (SysPoll timeout events)
      (advance (poll_time r events timeout) (after_cancels r w)).

(** [poll.poll(timeout)], [timeout] in milliseconds or [None]: the events
    of the registered descriptors at the end of the next round.  With
    nothing to report and no timeout the call never returns. *)
Definition poll_poll (s : Serial) (poll : list (Z * Z)) (timeout : option Z)
  : M (list (Z * Z)) := fun w =>
  let r := next_round w in
  let w1 := after_cancels r w in
  let events := ready s r w1 poll in
  match events, timeout with
  | [], None => (Blocked, log SysPollForever w1)
  | _, _ => (Ok events, after_poll timeout events w)
  end.

(** *** The timeout helper

    Modelled from the spec: [serial.serialutil.Timeout] is not part of the
    repository.  The spec's data model gives its three kinds (infinite,
    non-blocking, finite) and the remaining budget [max(0, deadline - now)]
    computed from a deadline fixed when the object is made; a timeout has
    expired when it has a deadline and no budget is left.  The clock of
    a [World] never runs backwards, so the deadline is never moved. *)
Record Timeout : Type := mkTimeout {
  is_infinite : bool;
  is_non_blocking : bool;
  duration : option Z;
  target_time : option Z
}.

(** [Timeout(duration)] made at time [now] *)
Definition new_Timeout (duration : option Z) (now : Z) : Timeout :=
  mkTimeout (match duration with None => true | Some _ => false end)
            (match duration with Some 0 => true | _ => false end)
            duration
            (match duration with None => None | Some d => Some (now + d) end).

(** [timeout.time_left()] read at time [now] *)
Definition time_left (t : Timeout) (now : Z) : option Z :=
  if is_non_blocking t then Some 0
  else if is_infinite t then None
  else match target_time t with
       | None => None
       | Some target => Some (Z.max 0 (target - now))
       end.

(** [timeout.expired()] read at time [now] *)
Definition expired (t : Timeout) (now : Z) : bool :=
  match target_time t, time_left t now with
  | Some _, Some budget => budget <=? 0
  | _, _ => false
  end.

(** [None if timeout.is_infinite else int(timeout.time_left() * 1000)]:
    whole milliseconds, the fraction dropped.  Python takes the product
    in floating point, which at some budgets gives one millisecond less
    than the exact quotient taken here, never more; what is proved from
    this value uses it as an upper bound only. *)
Definition poll_timeout_of (t : Timeout) (now : Z) : option Z :=
  if is_infinite t then None
  else match time_left t now with
       | None => None
       | Some budget => Some (budget / 1000)
       end.

(** ** The transport: [class Serial] *)

Inductive _PollResult : Type := TIMEOUT | ABORT | READY.

(** The [for fd, event in events] loop, lines 55-64 in [read] and 107-116
    in [write]; the two differ only in the abort pipe, [pipe] here.
    [result] is the value the variable has when the loop reaches
    [events]. *)
Fixpoint scan_events (s : Serial) (pipe : Z) (events : list (Z * Z))
    (result : _PollResult) : M _PollResult :=
  match events with
  | [] => ret result
  | (desc, event) :: rest =>
      if desc =? pipe then
        os_read s pipe 1000 ;;;
        ret ABORT
      else if negb (Z.land event POLL_ERRORS =? 0) then
        raise (SerialException "device reports error (poll)")
      else if desc =? fd s then scan_events s pipe rest READY
      else scan_events s pipe rest result
  end.

(** Lines 52-64 in [read] and 104-116 in [write]: the wait and the
    classification of what it reports. *)
Definition wait (s : Serial) (timeout : Timeout) (poll : list (Z * Z)) (pipe : Z)
  : M _PollResult :=
  now <- time_monotonic ;;
  events <- poll_poll s poll (poll_timeout_of timeout now) ;;
  scan_events s pipe events TIMEOUT.

(** The event masks of lines 47-48 and 87-88. *)
Definition mask_in : Z :=
  Z.lor (Z.lor (Z.lor select.POLLIN select.POLLERR) select.POLLHUP) select.POLLNVAL.
Definition mask_out : Z :=
  Z.lor (Z.lor (Z.lor select.POLLOUT select.POLLERR) select.POLLHUP) select.POLLNVAL.

(** Lines 46-48: the poll object of [read]. *)
Definition read_poll (s : Serial) : list (Z * Z) :=
  register (register [] (fd s) mask_in) (pipe_abort_read_r s) mask_in.

(** Lines 86-88: the poll object of [write]. *)
Definition write_poll (s : Serial) : list (Z * Z) :=
  register (register [] (fd s) mask_out) (pipe_abort_write_r s) mask_in.

(** [result in (_PollResult.TIMEOUT, _PollResult.ABORT)] *)
Definition in_TIMEOUT_ABORT (result : _PollResult) : bool :=
  match result with
  | TIMEOUT | ABORT => true
  | READY => false
  end.

(** Lines 50-74: [while len(read) < size: ...] and the [return].  [rd] is
    the bytearray [read]; one unit of fuel pays for one iteration.  The
    second branch is the [elif] of lines 71-72. *)
Fixpoint read_while (fuel : nat) (s : Serial) (size : Z) (timeout : Timeout)
    (poll : list (Z * Z)) (rd : bytes) : M bytes :=
  if len rd <? size then
    match fuel with
    | O => fun w => (OutOfFuel, w)
    | S fuel' =>
        result <- wait s timeout poll (pipe_abort_read_r s) ;;
        match result with
        | READY =>
            buf <- os_read s (fd s) (size - len rd) ;;
            let rd := rd ++ buf in
            if truthy (_inter_byte_timeout s) && (len buf =? 0) then ret rd
            else read_while fuel' s size timeout poll rd
        | _ =>
            now <- time_monotonic ;;
            if in_TIMEOUT_ABORT result || expired timeout now then ret rd
            else read_while fuel' s size timeout poll rd
        end
    end
  else ret rd.

(** Lines 38-74: [Serial.read]. *)
Definition read (fuel : nat) (s : Serial) (size : Z) : M bytes :=
  if negb (is_open s) then raise PortNotOpenError
  else
    now <- time_monotonic ;;
    let timeout := new_Timeout (_timeout s) now in
    read_while fuel s size timeout (read_poll s) [].

(** How the body of the [try] of [write] ends when it raises nothing. *)
Inductive flow : Type :=
| Next              (* falls out of the [try] *)
| Break             (* [break] *)
| Return (n : Z).   (* [return n] *)

(** Lines 92-121: the body of the [try], from the state [(d, tx_remaining)];
    gives the way it ended and the new state. *)
Definition write_try (s : Serial) (timeout : Timeout) (poll : list (Z * Z))
    (d : bytes) (tx_remaining : Z) : M (flow * bytes * Z) :=
  n <- os_write s (fd s) d ;;
  let tx_remaining := tx_remaining - n in
  let d := drop_bytes n d in
  if is_non_blocking timeout then ret (Return n, d, tx_remaining)
  else if tx_remaining =? 0 then ret (Break, d, tx_remaining)
  else
    result <- wait s timeout poll (pipe_abort_write_r s) ;;
    match result with
    | TIMEOUT => raise (SerialTimeoutException "Write timeout")
    | ABORT => ret (Break, d, tx_remaining)
    | READY => ret (Next, d, tx_remaining)
    end.

(** [try: body except OSError as e: handler(e)] *)
Definition try_except_OSError {A} (body : M A) (handler : exn -> M A) : M A :=
  fun w =>
    match body w with
    | (Raise e, w') =>
        if isinstance_OSError e then handler e w' else (Raise e, w')
    | r => r
    end.

(** Lines 123-125: the handler.  When it raises nothing the loop goes on
    from [(d, tx_remaining)], the state the [try] was entered with: the
    one exception that reaches this point with a tolerated [errno] is
    the failure of [os.write], before either variable is assigned. *)
Definition write_except (d : bytes) (tx_remaining : Z) (e : exn)
  : M (flow * bytes * Z) :=
  if negb (errno_is_transient (exn_errno e)) then
    raise (SerialException ("write failed: " ++ str e)%string)
  else ret (Next, d, tx_remaining).

(** Lines 90-130: [while tx_remaining > 0: ...] and the [return]. *)
Fixpoint write_while (fuel : nat) (s : Serial) (total_len : Z)
    (timeout : Timeout) (poll : list (Z * Z)) (d : bytes) (tx_remaining : Z)
  : M Z :=
  if 0 <? tx_remaining then
    match fuel with
    | O => fun w => (OutOfFuel, w)
    | S fuel' =>
        st <- try_except_OSError (write_try s timeout poll d tx_remaining)
                                 (write_except d tx_remaining) ;;
        match st with
        | (Return n, _, _) => ret n
        | (Break, d, _) => ret (total_len - len d)
        | (Next, d, tx_remaining) =>
            now <- time_monotonic ;;
            if negb (is_non_blocking timeout) && expired timeout now then
              raise (SerialTimeoutException "Write timeout")
            else write_while fuel' s total_len timeout poll d tx_remaining
        end
    end
  else ret (total_len - len d).

(** Lines 76-130: [Serial.write]; [data] is already a byte string, so
    [to_bytes] leaves it as it is. *)
Definition write (fuel : nat) (s : Serial) (data : bytes) : M Z :=
  if negb (is_open s) then raise PortNotOpenError
  else
    let d := data in
    let total_len := len d in
    let tx_remaining := total_len in
    now <- time_monotonic ;;
    let timeout := new_Timeout (_write_timeout s) now in
    write_while fuel s total_len timeout (write_poll s) d tx_remaining.

(** ** Sample ports and worlds *)

Definition port (rt wt ibt : option Z) : Serial :=
  mkSerial true 7 8 10 rt wt ibt.

Definition idle : World := mkWorld 0 [] [] [] [] [] [].

Definition closed_port : Serial := mkSerial false 7 8 10 (Some 100000) None None.

Definition hello : bytes := [Byte.x68; Byte.x65; Byte.x6c; Byte.x6c; Byte.x6f].
Definition AB : bytes := [Byte.x41; Byte.x42].

(** ** Reading the log *)

(** The bytes the device took, over the writes of a log. *)
Fixpoint written (tr : list Syscall) : Z :=
  match tr with
  | [] => 0
  | SysWriteOk _ _ n :: rest => n + written rest
  | _ :: rest => written rest
  end.

(** The calls of [os.write] in a log, failed ones included. *)
Fixpoint write_attempts (tr : list Syscall) : nat :=
  match tr with
  | [] => O
  | SysWriteOk _ _ _ :: rest => S (write_attempts rest)
  | SysWriteErr _ _ _ :: rest => S (write_attempts rest)
  | _ :: rest => write_attempts rest
  end.

(** The last call of a log. *)
Definition final (tr : list Syscall) : option Syscall :=
  match rev tr with
  | [] => None
  | e :: _ => Some e
  end.

(** The log of a [read] ends on a wait that timed out or on the drain of
    the abort pipe. *)
Definition ended_by_timeout_or_abort (s : Serial) (tr : list Syscall) : bool :=
  match final tr with
  | Some (SysPoll _ []) => true
  | Some (SysRead desc _ _) => desc =? pipe_abort_read_r s
  | _ => false
  end.

(** The log of a [read] ends on a read of the device that gave nothing,
    with an inter-byte timeout configured. *)
Definition ended_by_empty_read (s : Serial) (tr : list Syscall) : bool :=
  match final tr with
  | Some (SysRead desc _ []) => (desc =? fd s) && truthy (_inter_byte_timeout s)
  | _ => false
  end.

(** The log of a [read] ends in one of the ways that cut it short. *)
Definition stopped_early (s : Serial) (tr : list Syscall) : bool :=
  ended_by_timeout_or_abort s tr || ended_by_empty_read s tr.

(** ** The cases of one wait *)

(** What [wait] gives in [read] or [write], from the round it takes:
    [m] is the mask the device is registered with, [pipe] the abort pipe
    and [pend] what that pipe holds when the wait ends. *)
Definition wait_cases (s : Serial) (timeout : Timeout) (m pipe : Z) (pend : bytes)
    (w : World) : outcome _PollResult * World :=
  let r := next_round w in
  let t := poll_timeout_of timeout (clock w) in
  let ev := dev_event r m in
  let dev := if ev =? 0 then [] else [(fd s, ev)] in
  let events := dev ++ match pend with [] => [] | _ :: _ => [(pipe, select.POLLIN)] end in
  if negb (Z.land ev POLL_ERRORS =? 0) then
    (Raise (SerialException "device reports error (poll)"), after_poll t events w)
  else
    match pend with
    | _ :: _ => (Ok ABORT, snd (os_read s pipe 1000 (after_poll t events w)))
    | [] =>
        if ev =? 0 then
          match t with
          | None => (Blocked, log SysPollForever (after_cancels r w))
          | Some _ => (Ok TIMEOUT, after_poll t [] w)
          end
        else (Ok READY, after_poll t [(fd s, ev)] w)
    end.

(** What a non-blocking [write] of [data] may end with, from the log
    [new] of its system calls: a count taken by the last attempt, all
    earlier attempts having failed with a tolerated error; or the
    write-failed error for an error that is not tolerated. *)
Definition nonblocking_result (s : Serial) (data : bytes) (new : list Syscall)
    (out : outcome Z) : Prop :=
  match out with
  | Ok n =>
      exists errs,
        Forall (fun e => errno_is_transient (Some e) = true) errs
        /\ new = map (SysWriteErr (fd s) data) errs
                 ++ match data with
                    | [] => []
                    | _ :: _ => [SysWriteOk (fd s) data n]
                    end
        /\ 0 <= n <= len data
  | Raise e =>
      exists n msg,
        errno_is_transient (Some n) = false
        /\ e = SerialException ("write failed: " ++ str (OSError n msg))%string
  | Blocked => False
  | OutOfFuel => True
  end.

(** ** More readings of the log *)

(** The bytes the reads of the device gave, in order. *)
Fixpoint device_bytes (s : Serial) (tr : list Syscall) : bytes :=
  match tr with
  | [] => []
  | SysRead desc _ got :: rest =>
      if desc =? fd s then got ++ device_bytes s rest else device_bytes s rest
  | _ :: rest => device_bytes s rest
  end.

(** The reads of the device in a log. *)
Fixpoint device_reads (s : Serial) (tr : list Syscall) : nat :=
  match tr with
  | [] => O
  | SysRead desc _ _ :: rest =>
      if desc =? fd s then S (device_reads s rest) else device_reads s rest
  | _ :: rest => device_reads s rest
  end.

(** The bytes the device took off the data offered to it, in order. *)
Fixpoint accepted (tr : list Syscall) : bytes :=
  match tr with
  | [] => []
  | SysWriteOk _ data n :: rest => take_bytes n data ++ accepted rest
  | _ :: rest => accepted rest
  end.

(** The waits of a log that ended with nothing to report. *)
Fixpoint timed_out_waits (tr : list Syscall) : nat :=
  match tr with
  | [] => O
  | SysPoll _ [] :: rest => S (timed_out_waits rest)
  | _ :: rest => timed_out_waits rest
  end.

(** The log ends on a read of the abort pipe [pipe]. *)
Definition ended_by_abort (pipe : Z) (tr : list Syscall) : bool :=
  match final tr with
  | Some (SysRead desc _ _) => desc =? pipe
  | _ => false
  end.

Definition is_wait (e : Syscall) : bool :=
  match e with
  | SysPoll _ _ | SysPollForever => true
  | _ => false
  end.

Definition is_write (e : Syscall) : bool :=
  match e with
  | SysWriteOk _ _ _ | SysWriteErr _ _ _ => true
  | _ => false
  end.

(** The log is empty or starts with a write of the device. *)
Definition starts_with_write (tr : list Syscall) : bool :=
  match tr with
  | [] => true
  | e :: _ => is_write e
  end.

(** No failed write of the log is followed by a wait. *)
Fixpoint no_wait_after_failure (tr : list Syscall) : bool :=
  match tr with
  | [] => true
  | SysWriteErr _ _ _ :: rest =>
      match rest with
      | [] => true
      | e :: _ => negb (is_wait e)
      end && no_wait_after_failure rest
  | _ :: rest => no_wait_after_failure rest
  end.

(** The call is no wait, or a wait given a timeout of [ms] milliseconds
    with [0 <= ms] and [ms] milliseconds no more than [bound]
    microseconds.  A wait given no timeout, or a negative one, which
    [poll] takes as none, does not pass. *)
Definition bounded_wait (bound : Z) (e : Syscall) : bool :=
  match e with
  | SysPoll (Some ms) _ => (0 <=? ms) && (ms * 1000 <=? bound)
  | SysPoll None _ | SysPollForever => false
  | _ => true
  end.

(** Every wait of the log is bounded by [bound]. *)
Definition waits_bounded (bound : Z) (tr : list Syscall) : bool :=
  forallb (bounded_wait bound) tr.

(** The exceptions that leave [write] on an open port. *)
Inductive write_error : exn -> Prop :=
| WE_deadline : write_error (SerialTimeoutException "Write timeout")
| WE_wait : write_error (SerialException "write failed: Write timeout")
| WE_device :
    write_error (SerialException "write failed: device reports error (poll)")
| WE_system (n : Z) (msg : string) :
    errno_is_transient (Some n) = false ->
    write_error (SerialException ("write failed: " ++ str (OSError n msg))%string).

(** The ends the loop of [write] can come to, from the data [d] it
    started with, the write timeout [dur] and the log [new] of the
    call. *)
Definition write_end (s : Serial) (total_len : Z) (dur : option Z) (d : bytes)
    (new : list Syscall) (out : outcome Z) : Prop :=
  match out with
  | Ok n =>
      n = total_len - len d + written new
      /\ (dur <> Some 0 -> written new < len d ->
          ended_by_abort (pipe_abort_write_r s) new = true)
  | Raise e =>
      write_error e
      /\ (dur = None ->
          e <> SerialTimeoutException "Write timeout"
          /\ e <> SerialException "write failed: Write timeout")
  | Blocked => dur = None
  | OutOfFuel => True
  end.

(** ** The device path: the [port] setter *)

(** [value] without [prefix] at its start, when it starts with it. *)
Fixpoint strip_prefix (prefix value : string) : option string :=
  match prefix, value with
  | EmptyString, _ => Some value
  | String a p, String b v => if Ascii.eqb a b then strip_prefix p v else None
  | String _ _, EmptyString => None
  end.

(** [value.removeprefix(prefix)] *)
Definition removeprefix (value prefix : string) : string :=
  match strip_prefix prefix value with
  | Some rest => rest
  | None => value
  end.

(** Lines 33-36 of [protocol_pollserial.py]: the setter of [port].  The
    result is the path handed to the setter of the base class, [None]
    when that setter is not called. *)
Definition port_setter (value : option string) : option string :=
  match value with
  | None => None
  | Some v => Some (removeprefix v "pollserial://")
  end.

(** ** Register words: [entities/modbus_number.py] *)

(** [enumerate(l)] *)
Definition enumerate {A : Type} (l : list A) : list (Z * A) :=
  combine (map Z.of_nat (seq 0 (List.length l))) l.

(** [sum(l)] *)
Definition sum (l : list Z) : Z := fold_left Z.add l 0.

(** What [self._controller.read] gives when it gives something: an
    [int] or a list of them. *)
Inductive read_result : Type :=
| ReadInt (v : Z)
| ReadList (vs : list Z).

(** Line 89 of [modbus_number.py]:
    [sum((v & 0xFFFF) << (16 * i) for i, v in enumerate(values))] *)
Definition combine_little_endian (values : list Z) : Z :=
  sum (map (fun iv => Z.shiftl (Z.land (snd iv) 65535) (16 * fst iv))
           (enumerate values)).

(** Lines 80-90: [native_value] up to the raw value, before the scale,
    the post-processing and the validation. *)
Definition native_value_raw (values : option read_result) : option Z :=
  match values with
  | None => None
  | Some r =>
      let values := match r with ReadInt v => [v] | ReadList vs => vs end in
      Some (combine_little_endian values)
  end.

(** Line 125:
    [[(int_value >> (16 * i)) & 0xFFFF for i in range(n)]] *)
Definition split_words (int_value : Z) (n : nat) : list Z :=
  map (fun i => Z.land (Z.shiftr int_value (16 * Z.of_nat i)) 65535) (seq 0 n).

(** The call [async_set_native_value] makes on the controller. *)
Inductive ControllerCall : Type :=
| write_register (address value : Z)
| write_registers (start_address : Z) (words : list Z).

(** Lines 120-126: the write of [int_value] to the registers at
    [addresses]; [None] is the [IndexError] of [self._addresses[0]] on
    an empty list. *)
Definition set_registers (addresses : list Z) (int_value : Z)
  : option ControllerCall :=
  if Nat.eqb (List.length addresses) 1 then
    match addresses with
    | a :: _ => Some (write_register a int_value)
    | [] => None
    end
  else
    let words := split_words int_value (List.length addresses) in
    match addresses with
    | a :: _ => Some (write_registers a words)
    | [] => None
    end.

(** The register values a call sends, first register first. *)
Definition sent_values (c : ControllerCall) : list Z :=
  match c with
  | write_register _ value => [value]
  | write_registers _ words => words
  end.

(** * Properties *)

(** ** Bytes, bits and logs *)

Lemma len_nonneg (b : bytes) : 0 <= len b.
Proof. unfold len. lia. Qed.

Lemma len_nil_iff (b : bytes) : len b = 0 <-> b = [].
Proof.
  unfold len. split.
  - destruct b; [reflexivity | simpl; lia].
  - intros ->. reflexivity.
Qed.

Lemma len_app (a b : bytes) : len (a ++ b) = len a + len b.
Proof. unfold len. rewrite length_app. lia. Qed.

Lemma len_take_bytes (n : Z) (b : bytes) : len (take_bytes n b) <= Z.max 0 n.
Proof. unfold len, take_bytes. rewrite length_firstn. lia. Qed.

Lemma len_drop_bytes (n : Z) (b : bytes) :
  0 <= n <= len b -> len (drop_bytes n b) = len b - n.
Proof. intros H. unfold len, drop_bytes in *. rewrite length_skipn. lia. Qed.

Lemma drop_bytes_all (n : Z) (b : bytes) : len b <= n -> drop_bytes n b = [].
Proof.
  intros H. unfold drop_bytes. apply skipn_all2. unfold len in H. lia.
Qed.

Lemma land_nonzero (a b : Z) : Z.land a b <> 0 -> a <> 0.
Proof. intros H ->. apply H. apply Z.land_0_l. Qed.


Lemma pipe_event_in (p : bytes) : pipe_event p mask_in = pipe_level p.
Proof. destruct p; reflexivity. Qed.

(** The error bits pass the mask of [poll] whatever was asked for. *)
Lemma dev_event_errors (r : Round) (m : Z) :
  Z.land (dev_event r m) POLL_ERRORS = Z.land (dev_revents r) POLL_ERRORS.
Proof.
  unfold dev_event. apply Z.bits_inj'. intros n _.
  rewrite !Z.land_spec, Z.lor_spec.
  destruct (Z.testbit m n), (Z.testbit POLL_ERRORS n), (Z.testbit (dev_revents r) n);
    reflexivity.
Qed.


Lemma dev_event_quiet (m : Z) : dev_event quiet m = 0.
Proof. unfold dev_event. simpl. apply Z.land_0_r. Qed.

Lemma finite_timeout (dur t0 now : Z) :
  dur <> 0 ->
  is_non_blocking (new_Timeout (Some dur) t0) = false
  /\ exists ms, poll_timeout_of (new_Timeout (Some dur) t0) now = Some ms.
Proof.
  intros H. destruct dur; [contradiction| |];
    (split; [reflexivity | eexists; reflexivity]).
Qed.

Lemma final_snoc (tr : list Syscall) (e : Syscall) : final (tr ++ [e]) = Some e.
Proof. unfold final. rewrite rev_unit. reflexivity. Qed.

Lemma final_app (a b : list Syscall) : b <> [] -> final (a ++ b) = final b.
Proof.
  intros Hb. unfold final. rewrite rev_app_distr.
  destruct (rev b) as [|e l] eqn:E; [|reflexivity].
  exfalso. apply Hb. rewrite <- (rev_involutive b), E. reflexivity.
Qed.

Lemma written_app (a b : list Syscall) : written (a ++ b) = written a + written b.
Proof.
  induction a as [|e a IH]; [reflexivity|].
  destruct e; simpl; rewrite ?IH; lia.
Qed.

(** ** System calls *)

(** A read of the device: at most [n] bytes, one more line in the log. *)
Lemma os_read_device (s : Serial) (n : Z) (w : World) :
  distinct_fds s ->
  exists buf w',
    os_read s (fd s) n w = (Ok buf, w')
    /\ len buf <= Z.max 0 n
    /\ trace w' = trace w ++ [SysRead (fd s) n buf].
Proof.
  intros (Hr & Hw & _). unfold os_read.
  destruct (Z.eqb_spec (fd s) (pipe_abort_read_r s)) as [E|_]; [contradiction|].
  destruct (Z.eqb_spec (fd s) (pipe_abort_write_r s)) as [E|_]; [contradiction|].
  rewrite Z.eqb_refl.
  destruct (reads w) as [|chunk rest].
  - exists [], (log (SysRead (fd s) n []) w).
    split; [reflexivity|]. split; [|reflexivity].
    change (len []) with 0. lia.
  - eexists _, _. split; [reflexivity|]. split; [apply len_take_bytes | reflexivity].
Qed.

Lemma os_read_device_polls (s : Serial) (n : Z) (w : World) :
  distinct_fds s ->
  polls (snd (os_read s (fd s) n w)) = polls w.
Proof.
  intros (Hr & Hw & _). unfold os_read.
  destruct (Z.eqb_spec (fd s) (pipe_abort_read_r s)) as [E|_]; [contradiction|].
  destruct (Z.eqb_spec (fd s) (pipe_abort_write_r s)) as [E|_]; [contradiction|].
  rewrite Z.eqb_refl. destruct (reads w); reflexivity.
Qed.

Lemma drained_read_pipe (s : Serial) (n : Z) (w : World) :
  abort_read_pending (snd (os_read s (pipe_abort_read_r s) n w))
  = drop_bytes n (abort_read_pending w).
Proof. unfold os_read. rewrite Z.eqb_refl. reflexivity. Qed.

Lemma drained_write_pipe (s : Serial) (n : Z) (w : World) :
  pipe_abort_read_r s <> pipe_abort_write_r s ->
  abort_write_pending (snd (os_read s (pipe_abort_write_r s) n w))
  = drop_bytes n (abort_write_pending w).
Proof.
  intros H. unfold os_read.
  destruct (Z.eqb_spec (pipe_abort_write_r s) (pipe_abort_read_r s)) as [E|_];
    [symmetry in E; contradiction|].
  rewrite Z.eqb_refl. reflexivity.
Qed.

(** ** One wait, case by case *)

Section Waiting.
Variable s : Serial.
Hypothesis Hfds : distinct_fds s.

Lemma fd_is_not_read_pipe : (fd s =? pipe_abort_read_r s) = false.
Proof. apply Z.eqb_neq, Hfds. Qed.

Lemma fd_is_not_write_pipe : (fd s =? pipe_abort_write_r s) = false.
Proof. apply Z.eqb_neq, Hfds. Qed.

Lemma write_pipe_is_not_read_pipe : (pipe_abort_write_r s =? pipe_abort_read_r s) = false.
Proof. apply Z.eqb_neq. intro E. apply Hfds. symmetry. exact E. Qed.

Lemma read_poll_eq :
  read_poll s = [(fd s, mask_in); (pipe_abort_read_r s, mask_in)].
Proof. unfold read_poll. simpl. rewrite fd_is_not_read_pipe. reflexivity. Qed.

Lemma write_poll_eq :
  write_poll s = [(fd s, mask_out); (pipe_abort_write_r s, mask_in)].
Proof. unfold write_poll. simpl. rewrite fd_is_not_write_pipe. reflexivity. Qed.

Lemma wait_read (timeout : Timeout) (w : World) :
  wait s timeout (read_poll s) (pipe_abort_read_r s) w
  = wait_cases s timeout mask_in (pipe_abort_read_r s)
      (abort_read_pending w ++ signals (cancel_read (next_round w))) w.
Proof.
  rewrite read_poll_eq.
  unfold wait, wait_cases, bind, time_monotonic, poll_poll. simpl.
  unfold revents. rewrite fd_is_not_read_pipe, fd_is_not_write_pipe, !Z.eqb_refl, pipe_event_in. simpl.
  set (ev := dev_event (next_round w) mask_in).
  set (pend := abort_read_pending w ++ signals (cancel_read (next_round w))).
  destruct (Z.eqb_spec ev 0) as [E0|E0].
  - rewrite E0. simpl.
    destruct pend as [|b pend'] eqn:Ep;
      destruct (poll_timeout_of timeout (clock w)); simpl;
      unfold bind, os_read; rewrite ?Z.eqb_refl; reflexivity.
  - destruct (Z.eqb_spec (Z.land ev POLL_ERRORS) 0) as [E1|E1];
      destruct pend as [|b pend'] eqn:Ep;
      destruct (poll_timeout_of timeout (clock w)); simpl;
      unfold bind, os_read; rewrite ?fd_is_not_read_pipe; simpl;
      destruct (Z.eqb_spec (Z.land ev POLL_ERRORS) 0); try contradiction;
      simpl; rewrite ?Z.eqb_refl; reflexivity.
Qed.

Lemma wait_write (timeout : Timeout) (w : World) :
  wait s timeout (write_poll s) (pipe_abort_write_r s) w
  = wait_cases s timeout mask_out (pipe_abort_write_r s)
      (abort_write_pending w ++ signals (cancel_write (next_round w))) w.
Proof.
  rewrite write_poll_eq.
  unfold wait, wait_cases, bind, time_monotonic, poll_poll. simpl.
  unfold revents. rewrite fd_is_not_read_pipe, fd_is_not_write_pipe, write_pipe_is_not_read_pipe, !Z.eqb_refl, pipe_event_in. simpl.
  set (ev := dev_event (next_round w) mask_out).
  set (pend := abort_write_pending w ++ signals (cancel_write (next_round w))).
  destruct (Z.eqb_spec ev 0) as [E0|E0].
  - rewrite E0. simpl.
    destruct pend as [|b pend'] eqn:Ep;
      destruct (poll_timeout_of timeout (clock w)); simpl;
      unfold bind, os_read; rewrite ?write_pipe_is_not_read_pipe, ?Z.eqb_refl; reflexivity.
  - destruct (Z.eqb_spec (Z.land ev POLL_ERRORS) 0) as [E1|E1];
      destruct pend as [|b pend'] eqn:Ep;
      destruct (poll_timeout_of timeout (clock w)); simpl;
      unfold bind, os_read; rewrite ?fd_is_not_write_pipe; simpl;
      destruct (Z.eqb_spec (Z.land ev POLL_ERRORS) 0); try contradiction;
      simpl; rewrite ?write_pipe_is_not_read_pipe, ?Z.eqb_refl; reflexivity.
Qed.

End Waiting.

Lemma wait_cases_abort (s : Serial) (timeout : Timeout) (m pipe : Z)
    (pend : bytes) (w : World) :
  Z.land (dev_revents (next_round w)) POLL_ERRORS = 0 ->
  pend <> [] ->
  exists events,
    wait_cases s timeout m pipe pend w
    = (Ok ABORT,
       snd (os_read s pipe 1000
              (after_poll (poll_timeout_of timeout (clock w)) events w))).
Proof.
  intros Herr Hpend. unfold wait_cases.
  rewrite dev_event_errors, Herr.
  destruct pend; [contradiction|]. eexists. reflexivity.
Qed.

(** ** One iteration of the loops *)

Lemma read_while_S (fuel : nat) (s : Serial) (size : Z) (timeout : Timeout)
    (poll : list (Z * Z)) (rd : bytes) :
  read_while (S fuel) s size timeout poll rd
  = if len rd <? size then
      result <- wait s timeout poll (pipe_abort_read_r s) ;;
      match result with
      | READY =>
          buf <- os_read s (fd s) (size - len rd) ;;
          let rd := rd ++ buf in
          if truthy (_inter_byte_timeout s) && (len buf =? 0) then ret rd
          else read_while fuel s size timeout poll rd
      | _ =>
          now <- time_monotonic ;;
          if in_TIMEOUT_ABORT result || expired timeout now then ret rd
          else read_while fuel s size timeout poll rd
      end
    else ret rd.
Proof. reflexivity. Qed.

Lemma read_while_done (fuel : nat) (s : Serial) (size : Z) (timeout : Timeout)
    (poll : list (Z * Z)) (rd : bytes) (w : World) :
  size <= len rd ->
  read_while fuel s size timeout poll rd w = (Ok rd, w).
Proof.
  intros H. destruct fuel; simpl;
    destruct (Z.ltb_spec (len rd) size); try lia; reflexivity.
Qed.

(** In [read], a wait that reports an error condition of the device
    raises the device error itself, whatever was read before. *)
Lemma read_device_error (fuel : nat) (s : Serial) (size : Z) (timeout : Timeout)
    (rd : bytes) (w : World) :
  distinct_fds s ->
  len rd < size ->
  Z.land (dev_revents (next_round w)) POLL_ERRORS <> 0 ->
  fst (read_while (S fuel) s size timeout (read_poll s) rd w)
  = Raise (SerialException "device reports error (poll)").
Proof.
  intros Hfds Hlt Herr.
  rewrite read_while_S.
  destruct (Z.ltb_spec (len rd) size) as [_|]; [|lia].
  unfold bind at 1. rewrite (wait_read Hfds). unfold wait_cases.
  rewrite dev_event_errors.
  destruct (Z.eqb_spec (Z.land (dev_revents (next_round w)) POLL_ERRORS) 0);
    [contradiction | reflexivity].
Qed.

Lemma write_while_S (fuel : nat) (s : Serial) (total_len : Z) (timeout : Timeout)
    (poll : list (Z * Z)) (d : bytes) (tx_remaining : Z) :
  write_while (S fuel) s total_len timeout poll d tx_remaining
  = if 0 <? tx_remaining then
      st <- try_except_OSError (write_try s timeout poll d tx_remaining)
                               (write_except d tx_remaining) ;;
      match st with
      | (Return n, _, _) => ret n
      | (Break, d, _) => ret (total_len - len d)
      | (Next, d, tx_remaining) =>
          now <- time_monotonic ;;
          if negb (is_non_blocking timeout) && expired timeout now then
            raise (SerialTimeoutException "Write timeout")
          else write_while fuel s total_len timeout poll d tx_remaining
      end
    else ret (total_len - len d).
Proof. reflexivity. Qed.

Lemma write_while_done (fuel : nat) (s : Serial) (total_len : Z)
    (timeout : Timeout) (poll : list (Z * Z)) (d : bytes) (tx_remaining : Z)
    (w : World) :
  tx_remaining <= 0 ->
  write_while fuel s total_len timeout poll d tx_remaining w
  = (Ok (total_len - len d), w).
Proof.
  intros H. destruct fuel; simpl;
    destruct (Z.ltb_spec 0 tx_remaining); try lia; reflexivity.
Qed.

(** One iteration of the loop of [write] when [os.write] fails. *)
Lemma write_fail_step :
  forall (fuel : nat) (s : Serial) (total_len : Z) (timeout : Timeout)
         (poll : list (Z * Z)) (d : bytes) (tx_remaining : Z) (w : World)
         (took e : Z) (msg : string),
    0 < tx_remaining ->
    next_answer d w = Fail took e msg ->
    let w1 := after_write took (SysWriteErr (fd s) d e) w in
    write_while (S fuel) s total_len timeout poll d tx_remaining w
    = if errno_is_transient (Some e) then
        if negb (is_non_blocking timeout) && expired timeout (clock w1) then
          (Raise (SerialTimeoutException "Write timeout"), w1)
        else write_while fuel s total_len timeout poll d tx_remaining w1
      else
        (Raise (SerialException ("write failed: " ++ str (OSError e msg))%string), w1).
Proof.
  intros fuel s total_len timeout poll d tx w took e msg Htx Hw w1.
  rewrite write_while_S.
  destruct (Z.ltb_spec 0 tx) as [_|]; [|lia].
  unfold try_except_OSError, write_try, write_except.
  unfold bind, os_write, time_monotonic.
  rewrite Z.eqb_refl, Hw.
  change (exn_errno (OSError e msg)) with (Some e).
  destruct (errno_is_transient (Some e)); cbn -[write_while str].
  - fold w1. change (clock w + Z.max 0 took) with (clock w1).
    destruct (negb (is_non_blocking timeout) && expired timeout (clock w1));
      reflexivity.
  - reflexivity.
Qed.

Lemma write_accept_step (fuel : nat) (s : Serial) (total_len : Z)
    (timeout : Timeout) (d : bytes) (tx_remaining : Z) (w : World) (took k : Z) :
  distinct_fds s ->
  0 < tx_remaining ->
  next_answer d w = Accept took k ->
  let n := Z.max 0 (Z.min k (len d)) in
  let w1 := after_write took (SysWriteOk (fd s) d n) w in
  write_while (S fuel) s total_len timeout (write_poll s) d tx_remaining w
  = if is_non_blocking timeout then (Ok n, w1)
    else if tx_remaining - n =? 0 then (Ok (total_len - len (drop_bytes n d)), w1)
    else
      match wait_cases s timeout mask_out (pipe_abort_write_r s)
              (abort_write_pending w ++ signals (cancel_write (next_round w))) w1
      with
      | (Ok TIMEOUT, w2) =>
          (Raise (SerialException "write failed: Write timeout"), w2)
      | (Ok ABORT, w2) => (Ok (total_len - len (drop_bytes n d)), w2)
      | (Ok READY, w2) =>
          if expired timeout (clock w2) then
            (Raise (SerialTimeoutException "Write timeout"), w2)
          else write_while fuel s total_len timeout (write_poll s)
                 (drop_bytes n d) (tx_remaining - n) w2
      | (Raise _, w2) =>
          (Raise (SerialException "write failed: device reports error (poll)"), w2)
      | (Blocked, w2) => (Blocked, w2)
      | (OutOfFuel, w2) => (OutOfFuel, w2)
      end.
Proof.
  intros Hfds Htx Hw n w1.
  rewrite write_while_S.
  destruct (Z.ltb_spec 0 tx_remaining) as [_|]; [|lia].
  unfold try_except_OSError, write_try, write_except.
  unfold bind at 1 2. unfold os_write. rewrite Z.eqb_refl, Hw.
  fold n. fold w1. cbv iota beta.
  destruct (is_non_blocking timeout) eqn:Hnb; [reflexivity|].
  destruct (tx_remaining - n =? 0) eqn:Hz; [reflexivity|].
  unfold bind at 1. rewrite (wait_write Hfds).
  change (abort_write_pending w1 ++ signals (cancel_write (next_round w1)))
    with (abort_write_pending w ++ signals (cancel_write (next_round w))).
  unfold wait_cases.
  destruct (negb (Z.land (dev_event (next_round w1) mask_out) POLL_ERRORS =? 0));
    [reflexivity|].
  destruct (abort_write_pending w ++ signals (cancel_write (next_round w)));
    [|reflexivity].
  destruct (dev_event (next_round w1) mask_out =? 0).
  - destruct (poll_timeout_of timeout (clock w1)); reflexivity.
  - unfold bind, time_monotonic, ret, raise. cbn -[write_while after_poll].
    destruct (expired timeout _); reflexivity.
Qed.

(** ** Enough fuel

    Every iteration of the loop of [read] takes a round off the script of
    the waits, and every iteration of the loop of [write] an answer off
    the script of the device; once a script is over the loop ends.  So
    neither call runs out of fuel when given one unit more than the
    script is long: it returns, raises, or waits for ever. *)

Lemma read_while_enough_fuel (s : Serial) (size : Z) (timeout : Timeout) :
  distinct_fds s ->
  forall (fuel : nat) (rd : bytes) (w : World),
    (List.length (polls w) < fuel)%nat ->
    fst (read_while fuel s size timeout (read_poll s) rd w) <> OutOfFuel.
Proof.
  intros Hfds. induction fuel as [|fuel IH]; intros rd w Hfuel; [lia|].
  rewrite read_while_S.
  destruct (len rd <? size); [|discriminate].
  unfold bind at 1. rewrite (wait_read Hfds). unfold wait_cases.
  destruct (negb (Z.land (dev_event (next_round w) mask_in) POLL_ERRORS =? 0));
    [discriminate|].
  destruct (abort_read_pending w ++ signals (cancel_read (next_round w)));
    [|discriminate].
  destruct (Z.eqb_spec (dev_event (next_round w) mask_in) 0) as [E0|E0].
  - destruct (poll_timeout_of timeout (clock w)); discriminate.
  - cbv iota beta. unfold bind at 1.
    set (w2 := after_poll _ _ w).
    pose proof (@os_read_device_polls s (size - len rd) w2 Hfds) as Hp.
    destruct (@os_read_device s (size - len rd) w2 Hfds) as (buf & w3 & Hread & _).
    rewrite Hread in *. cbv zeta.
    destruct (truthy (_inter_byte_timeout s) && (len buf =? 0)); [discriminate|].
    apply IH. simpl in Hp. rewrite Hp. subst w2. simpl.
    destruct (polls w) as [|r rest] eqn:Epolls.
    + exfalso. apply E0. unfold next_round. rewrite Epolls. apply dev_event_quiet.
    + simpl in *. lia.
Qed.

Lemma read_enough_fuel (s : Serial) (size : Z) (w : World) :
  distinct_fds s ->
  fst (read (S (List.length (polls w))) s size w) <> OutOfFuel.
Proof.
  intros Hfds. unfold read.
  destruct (negb (is_open s)); [discriminate|].
  unfold bind, time_monotonic. cbv iota beta zeta.
  apply read_while_enough_fuel; [exact Hfds | lia].
Qed.

Lemma write_while_enough_fuel (s : Serial) (total_len : Z) (timeout : Timeout) :
  distinct_fds s ->
  forall (fuel : nat) (d : bytes) (tx_remaining : Z) (w : World),
    tx_remaining = len d ->
    (List.length (writes w) < fuel)%nat ->
    fst (write_while fuel s total_len timeout (write_poll s) d tx_remaining w)
    <> OutOfFuel.
Proof.
  intros Hfds. induction fuel as [|fuel IH]; intros d tx w Htx Hfuel; [lia|].
  destruct (Z.ltb_spec 0 tx) as [Hpos|Hzero];
    [|rewrite write_while_done by exact Hzero; discriminate].
  destruct (next_answer d w) as [took k|took e msg] eqn:Hans.
  - rewrite (@write_accept_step fuel s total_len timeout d tx w took k
               Hfds Hpos Hans).
    set (n0 := Z.max 0 (Z.min k (len d))).
    assert (Hn0 : 0 <= n0 <= len d) by (pose proof (len_nonneg d); lia).
    destruct (is_non_blocking timeout); [discriminate|].
    destruct (Z.eqb_spec (tx - n0) 0) as [|Hleft]; [discriminate|].
    unfold wait_cases.
    destruct (negb (Z.land (dev_event _ mask_out) POLL_ERRORS =? 0));
      [discriminate|].
    destruct (abort_write_pending w ++ signals (cancel_write (next_round w)));
      [|discriminate].
    destruct (dev_event _ mask_out =? 0).
    + destruct (poll_timeout_of timeout _); discriminate.
    + destruct (expired timeout _); [discriminate|].
      apply IH; [rewrite len_drop_bytes by exact Hn0; lia|].
      simpl. destruct (writes w) as [|a rest] eqn:Ew; [|simpl in *; lia].
      exfalso. unfold next_answer in Hans. rewrite Ew in Hans.
      injection Hans as <- <-. subst n0. lia.
  - rewrite (@write_fail_step fuel s total_len timeout (write_poll s)
               d tx w took e msg Hpos Hans).
    destruct (errno_is_transient (Some e)); [|discriminate].
    destruct (negb (is_non_blocking timeout) && expired timeout _);
      [discriminate|].
    apply IH; [exact Htx|].
    simpl. destruct (writes w) as [|a rest] eqn:Ew; [|simpl in *; lia].
    unfold next_answer in Hans. rewrite Ew in Hans. discriminate.
Qed.

Lemma write_enough_fuel (s : Serial) (data : bytes) (w : World) :
  distinct_fds s ->
  fst (write (S (List.length (writes w))) s data w) <> OutOfFuel.
Proof.
  intros Hfds. unfold write.
  destruct (negb (is_open s)); [discriminate|].
  unfold bind, time_monotonic. cbv iota beta zeta.
  apply write_while_enough_fuel; [exact Hfds | reflexivity | lia].
Qed.

(** ** Whole calls *)

Section ReadLength.
Variable s : Serial.
Variable size : Z.
Variable timeout : Timeout.
Hypothesis Hfds : distinct_fds s.

Lemma read_while_length (fuel : nat) :
  forall (rd bs : bytes) (w w' : World),
    len rd < size ->
    read_while fuel s size timeout (read_poll s) rd w = (Ok bs, w') ->
    exists new,
      trace w' = trace w ++ new
      /\ new <> []
      /\ len bs <= size
      /\ (len bs = size <-> stopped_early s new = false).
Proof.
  assert (Hfr : (fd s =? pipe_abort_read_r s) = false) by (apply Z.eqb_neq, Hfds).
  induction fuel as [|fuel IH]; intros rd bs w w' Hlt Hrun.
  - simpl in Hrun. destruct (Z.ltb_spec (len rd) size); [discriminate|lia].
  - rewrite read_while_S in Hrun.
    destruct (Z.ltb_spec (len rd) size) as [_|]; [|lia].
    unfold bind at 1 in Hrun. rewrite (wait_read Hfds) in Hrun.
    unfold wait_cases in Hrun.
    set (t := poll_timeout_of timeout (clock w)) in *.
    set (ev := dev_event (next_round w) mask_in) in *.
    destruct (negb (Z.land ev POLL_ERRORS =? 0)); [discriminate|].
    destruct (abort_read_pending w ++ signals (cancel_read (next_round w)))
      as [|b pend] eqn:Ep.
    + destruct (Z.eqb_spec ev 0) as [E0|E0].
      * (* nothing ready *)
        destruct t as [ms|] eqn:Et; [|discriminate].
        simpl in Hrun. injection Hrun as <- <-.
        exists [SysPoll (Some ms) []]. repeat split; try discriminate; lia.
      * (* the device is ready *)
        simpl app in Hrun. cbv iota beta in Hrun.
        set (w2 := after_poll t [(fd s, ev)] w) in *.
        unfold bind at 1 in Hrun.
        destruct (@os_read_device s (size - len rd) w2 Hfds)
          as (buf & w3 & Hread & Hbuf & Htr3).
        rewrite Hread in Hrun. cbv zeta in Hrun.
        assert (Hw3 : trace w3 = trace w ++ [SysPoll t [(fd s, ev)];
                                             SysRead (fd s) (size - len rd) buf]).
        { rewrite Htr3. subst w2. simpl. rewrite <- app_assoc. reflexivity. }
        destruct (truthy (_inter_byte_timeout s) && (len buf =? 0)) eqn:Hstop.
        -- (* an empty read ends the burst *)
           injection Hrun as <- <-.
           apply andb_true_iff in Hstop as [Hibt Hz].
           apply Z.eqb_eq, len_nil_iff in Hz. subst buf.
           eexists. split; [exact Hw3|].
           rewrite app_nil_r.
           split; [discriminate|]. split; [lia|].
           split; [lia|].
           unfold stopped_early, ended_by_timeout_or_abort, ended_by_empty_read.
           change [SysPoll t [(fd s, ev)]; SysRead (fd s) (size - len rd) []]
             with ([SysPoll t [(fd s, ev)]] ++ [SysRead (fd s) (size - len rd) []]).
           rewrite final_snoc, Hfr, Z.eqb_refl, Hibt. discriminate.
        -- destruct (Z.ltb_spec (len (rd ++ buf)) size) as [Hmore|Hfull].
           ++ destruct (IH _ _ _ _ Hmore Hrun) as (new & Hnew & Hne & Hle & Hiff).
              exists ([SysPoll t [(fd s, ev)];
                       SysRead (fd s) (size - len rd) buf] ++ new).
              split; [rewrite Hnew, Hw3, <- app_assoc; reflexivity|].
              split; [discriminate|]. split; [exact Hle|].
              unfold stopped_early, ended_by_timeout_or_abort, ended_by_empty_read in *.
              rewrite (final_app _ Hne). exact Hiff.
           ++ rewrite read_while_done in Hrun by exact Hfull.
              injection Hrun as <- <-.
              rewrite len_app in *.
              eexists. split; [exact Hw3|].
              split; [discriminate|]. split; [lia|].
              split; [|lia]. intros _.
              unfold stopped_early, ended_by_timeout_or_abort, ended_by_empty_read.
              change [SysPoll t [(fd s, ev)]; SysRead (fd s) (size - len rd) buf]
                with ([SysPoll t [(fd s, ev)]] ++ [SysRead (fd s) (size - len rd) buf]).
              rewrite final_snoc, Hfr. simpl.
              destruct buf; [|reflexivity].
              change (len []) with 0 in *. lia.
    + (* the abort pipe is ready *)
      cbv iota beta in Hrun. unfold bind, time_monotonic, ret in Hrun.
      simpl in_TIMEOUT_ABORT in Hrun. simpl orb in Hrun. cbv iota in Hrun.
      injection Hrun as <- <-.
      unfold os_read. rewrite Z.eqb_refl.
      eexists [SysPoll t _; SysRead (pipe_abort_read_r s) 1000 _].
      split; [simpl; rewrite <- app_assoc; reflexivity|].
      split; [discriminate|]. split; [lia|].
      split; [lia|].
      unfold stopped_early, ended_by_timeout_or_abort.
      match goal with |- context [final [?a; ?b]] =>
        change [a; b] with ([a] ++ [b]) end.
      rewrite final_snoc, Z.eqb_refl. discriminate.
Qed.

End ReadLength.

Section WriteCount.
Variable s : Serial.
Variable total_len : Z.
Variable timeout : Timeout.
Hypothesis Hfds : distinct_fds s.

Lemma write_while_written (fuel : nat) :
  forall (d : bytes) (tx_remaining : Z) (w : World) (n : Z) (w' : World),
    tx_remaining = len d ->
    (is_non_blocking timeout = true -> total_len = len d) ->
    write_while fuel s total_len timeout (write_poll s) d tx_remaining w
    = (Ok n, w') ->
    exists new,
      trace w' = trace w ++ new
      /\ n = total_len - len d + written new.
Proof.
  induction fuel as [|fuel IH]; intros d tx w n w' Htx Hnb Hrun.
  - simpl in Hrun. destruct (0 <? tx); [discriminate|].
    injection Hrun as <- <-. exists []. rewrite app_nil_r. simpl. split; [reflexivity|lia].
  - destruct (Z.ltb_spec 0 tx) as [Hpos|Hzero].
    + destruct (next_answer d w) as [took k|took e msg] eqn:Hans.
      * rewrite (@write_accept_step fuel s total_len timeout d tx w took k
                   Hfds Hpos Hans) in Hrun.
        set (n0 := Z.max 0 (Z.min k (len d))) in *.
        assert (Hn0 : 0 <= n0 <= len d) by (pose proof (len_nonneg d); lia).
        set (w1 := after_write took (SysWriteOk (fd s) d n0) w) in *.
        assert (Hw1 : trace w1 = trace w ++ [SysWriteOk (fd s) d n0])
          by reflexivity.
        destruct (is_non_blocking timeout) eqn:Enb.
        { injection Hrun as <- <-. eexists. split; [exact Hw1|].
          simpl. rewrite (Hnb eq_refl). lia. }
        destruct (tx - n0 =? 0).
        { injection Hrun as <- <-. eexists. split; [exact Hw1|].
          simpl. rewrite len_drop_bytes by exact Hn0. lia. }
        unfold wait_cases in Hrun.
        destruct (negb (Z.land (dev_event (next_round w1) mask_out) POLL_ERRORS =? 0));
          [discriminate|].
        destruct (abort_write_pending w ++ signals (cancel_write (next_round w)))
          as [|b pend].
        -- destruct (dev_event (next_round w1) mask_out =? 0).
           ++ destruct (poll_timeout_of timeout (clock w1)); discriminate.
           ++ destruct (expired timeout _); [discriminate|].
              apply IH in Hrun.
              ** destruct Hrun as (new & Hnew & Hn).
                 eexists (SysWriteOk (fd s) d n0 :: SysPoll _ _ :: new).
                 split.
                 { rewrite Hnew. simpl. rewrite <- !app_assoc. reflexivity. }
                 simpl. rewrite len_drop_bytes in Hn by exact Hn0. lia.
              ** rewrite len_drop_bytes by exact Hn0. lia.
              ** discriminate.
        -- unfold os_read in Hrun.
           destruct (Z.eqb_spec (pipe_abort_write_r s) (pipe_abort_read_r s))
             as [E|_]; [exfalso; apply Hfds; symmetry; exact E|].
           rewrite Z.eqb_refl in Hrun.
           injection Hrun as <- <-.
           eexists [SysWriteOk (fd s) d n0; SysPoll _ _; SysRead _ _ _].
           split.
           { simpl. rewrite <- !app_assoc. reflexivity. }
           simpl. rewrite len_drop_bytes by exact Hn0. lia.
      * rewrite (@write_fail_step fuel s total_len timeout (write_poll s)
                   d tx w took e msg Hpos Hans) in Hrun.
        destruct (errno_is_transient (Some e)); [|discriminate].
        destruct (negb (is_non_blocking timeout) && expired timeout _);
          [discriminate|].
        apply IH in Hrun; [|exact Htx|exact Hnb].
        destruct Hrun as (new & Hnew & Hn).
        exists (SysWriteErr (fd s) d e :: new).
        split; [|exact Hn].
        rewrite Hnew. simpl. rewrite <- app_assoc. reflexivity.
    + rewrite write_while_S in Hrun.
      destruct (Z.ltb_spec 0 tx); [lia|].
      injection Hrun as <- <-. exists []. rewrite app_nil_r. simpl.
      split; [reflexivity|lia].
Qed.

End WriteCount.

Lemma nonblocking_write_while (s : Serial) (timeout : Timeout) (data : bytes)
    (fuel : nat) :
  distinct_fds s ->
  is_non_blocking timeout = true ->
  0 < len data ->
  forall (w : World) (out : outcome Z) (w' : World),
    write_while fuel s (len data) timeout (write_poll s) data (len data) w
    = (out, w') ->
    polls w' = polls w
    /\ exists new, trace w' = trace w ++ new /\ nonblocking_result s data new out.
Proof.
  intros Hfds Hnb Hpos.
  induction fuel as [|fuel IH]; intros w out w' Hrun.
  - simpl in Hrun. destruct (Z.ltb_spec 0 (len data)); [|lia].
    injection Hrun as <- <-. split; [reflexivity|].
    exists []. rewrite app_nil_r. split; [reflexivity | exact I].
  - destruct (next_answer data w) as [took k|took e msg] eqn:Hans.
    + rewrite (@write_accept_step fuel s (len data) timeout data (len data) w
                 took k Hfds Hpos Hans), Hnb in Hrun.
      injection Hrun as <- <-. split; [reflexivity|].
      eexists. split; [reflexivity|].
      exists []. split; [constructor|].
      destruct data; [discriminate|]. split; [reflexivity | lia].
    + rewrite (@write_fail_step fuel s (len data) timeout (write_poll s)
                 data (len data) w took e msg Hpos Hans), Hnb in Hrun.
      destruct (errno_is_transient (Some e)) eqn:He.
      * simpl in Hrun. apply IH in Hrun. destruct Hrun as (Hp & new & Hnew & Hres).
        split; [exact Hp|].
        exists (SysWriteErr (fd s) data e :: new).
        split; [rewrite Hnew; simpl; rewrite <- app_assoc; reflexivity|].
        destruct out as [n| | |]; simpl in *; try assumption.
        destruct Hres as (errs & Hall & -> & Hn).
        exists (e :: errs). split; [constructor; assumption|].
        split; [reflexivity | exact Hn].
      * injection Hrun as <- <-. split; [reflexivity|].
        eexists. split; [reflexivity|].
        exists e, msg. split; [exact He | reflexivity].
Qed.

(** * The transport against its specification *)

(** ** The length of what [read] returns *)

(** C1, as amended. For [size >= 0], [read] on an open port ends by
    itself (it needs no more iterations than the script of the waits is
    long, plus one), and whenever it returns it returns at most [size]
    bytes; it returns exactly [size] bytes unless its log ends on a wait
    that timed out, on the drain of the abort pipe or, with an
    inter-byte timeout configured, on a read of the device that gave
    nothing.  A shorter result is a normal return. *)
Theorem read_length :
  forall (s : Serial) (size : Z) (w : World),
    is_open s = true ->
    distinct_fds s ->
    0 <= size ->
    fst (read (S (List.length (polls w))) s size w) <> OutOfFuel
    /\ forall (fuel : nat) (bs : bytes) (w' : World),
        read fuel s size w = (Ok bs, w') ->
        len bs <= size
        /\ exists new,
            trace w' = trace w ++ new
            /\ (len bs = size
                <-> ended_by_timeout_or_abort s new = false
                    /\ ended_by_empty_read s new = false).
Proof.
  intros s size w Hopen Hfds Hsize.
  split; [apply read_enough_fuel; exact Hfds|].
  intros fuel bs w' Hrun.
  unfold read in Hrun. rewrite Hopen in Hrun.
  change (negb true) with false in Hrun.
  unfold bind, time_monotonic in Hrun. cbv iota beta in Hrun.
  destruct (Z.ltb_spec (len []) size) as [Hlt|Hge].
  - destruct (@read_while_length s size _ Hfds fuel _ _ _ _ Hlt Hrun)
      as (new & Hnew & _ & Hle & Hiff).
    split; [exact Hle|]. exists new. split; [exact Hnew|].
    rewrite Hiff. apply orb_false_iff.
  - rewrite read_while_done in Hrun by exact Hge.
    injection Hrun as <- <-.
    change (len []) with 0 in *.
    split; [lia|]. exists []. split; [symmetry; apply app_nil_r|].
    split; [intros _; split; reflexivity | intros _; lia].
Qed.

Lemma read_length_witness :
  let s := port (Some 100000) None None in
  let w := mkWorld 0 [] [] [mkRound 10 select.POLLIN 0 0] [AB] [] [] in
  let w' := snd (read 2 s 4 w) in
  fst (read 2 s 4 w) <> OutOfFuel
  /\ len AB <= 4
  /\ exists new,
      trace w' = trace w ++ new
      /\ (len AB = 4
          <-> ended_by_timeout_or_abort s new = false
              /\ ended_by_empty_read s new = false).
Proof.
  intros s w w'.
  assert (Hfds : distinct_fds s) by (repeat split; intro H; discriminate H).
  assert (Hsize : 0 <= 4) by lia.
  destruct (@read_length s 4 w eq_refl Hfds Hsize) as [Hends Hret].
  split; [exact Hends|].
  apply (Hret 2%nat AB w'). reflexivity.
Defined.

(** C1, as stated, fails: a short result needs neither a timeout nor an
    abort.  With no read timeout at all, an inter-byte timeout and
    nobody cancelling, a read of the device that gives nothing ends
    [read(4)] with no byte, while the device holds the four bytes for
    its next read. *)
Lemma short_read_without_timeout_or_abort :
  let s := port None None (Some 100000) in
  let w := mkWorld 0 [] [] [mkRound 10 select.POLLIN 0 0; mkRound 10 select.POLLIN 0 0]
                   [[]; AB ++ AB] [] [] in
  let r := read 2 s 4 w in
  fst r = Ok []
  /\ trace (snd r) = [SysPoll None [(7, 1)]; SysRead 7 4 []]
  /\ reads (snd r) = [AB ++ AB]
  /\ ended_by_timeout_or_abort s (trace (snd r)) = false
  /\ ~ (len [] = 4 <-> ended_by_timeout_or_abort s (trace (snd r)) = false).
Proof.
  vm_compute. repeat split; try reflexivity.
  intros [_ H]. specialize (H eq_refl). discriminate H.
Qed.

(** ** Aborts *)

(** C2, as amended. When the wait reports the abort pipe and no error of
    the device with it, the call reads up to 1000 bytes off the pipe,
    which empties it when it holds no more than that, and ends normally:
    [read] returns the bytes it had, [write] the count of the bytes
    written so far. *)
Theorem abort_is_normal_completion :
  forall (fuel : nat) (s : Serial) (timeout : Timeout) (w : World),
    distinct_fds s ->
    Z.land (dev_revents (next_round w)) POLL_ERRORS = 0 ->
    (forall (size : Z) (rd : bytes),
        len rd < size ->
        let pend := abort_read_pending w ++ signals (cancel_read (next_round w)) in
        pend <> [] ->
        exists w',
          read_while (S fuel) s size timeout (read_poll s) rd w = (Ok rd, w')
          /\ abort_read_pending w' = drop_bytes 1000 pend
          /\ (len pend <= 1000 -> abort_read_pending w' = []))
    /\ (forall (total_len : Z) (d : bytes) (tx_remaining took k : Z),
        0 < tx_remaining ->
        is_non_blocking timeout = false ->
        next_answer d w = Accept took k ->
        let n := Z.max 0 (Z.min k (len d)) in
        tx_remaining - n <> 0 ->
        let pend := abort_write_pending w ++ signals (cancel_write (next_round w)) in
        pend <> [] ->
        exists w',
          write_while (S fuel) s total_len timeout (write_poll s) d tx_remaining w
          = (Ok (total_len - len (drop_bytes n d)), w')
          /\ abort_write_pending w' = drop_bytes 1000 pend
          /\ (len pend <= 1000 -> abort_write_pending w' = [])).
Proof.
  intros fuel s timeout w Hfds Herr. split.
  - intros size rd Hlt pend Hpend.
    rewrite read_while_S.
    destruct (Z.ltb_spec (len rd) size) as [_|]; [|lia].
    unfold bind at 1. rewrite (wait_read Hfds). fold pend.
    destruct (@wait_cases_abort s timeout mask_in (pipe_abort_read_r s) pend w
                Herr Hpend) as [events ->].
    eexists. split; [reflexivity|].
    rewrite drained_read_pipe.
    split; [reflexivity | apply drop_bytes_all].
  - intros total_len d tx took k Htx Hnb Hw n Hpart pend Hpend.
    rewrite (@write_accept_step fuel s total_len timeout d tx w took k
               Hfds Htx Hw), Hnb.
    fold n. destruct (Z.eqb_spec (tx - n) 0); [contradiction|]. fold pend.
    destruct (@wait_cases_abort s timeout mask_out (pipe_abort_write_r s) pend
                (after_write took (SysWriteOk (fd s) d n) w) Herr Hpend)
      as [events ->].
    eexists. split; [reflexivity|].
    rewrite drained_write_pipe by apply Hfds.
    split; [reflexivity | apply drop_bytes_all].
Qed.

Lemma abort_is_normal_completion_witness :
  let s := port (Some 1000000) (Some 1000000) None in
  let t := new_Timeout (Some 1000000) 0 in
  let w := mkWorld 0 [] [] [mkRound 10 0 1 1] [] [Accept 3 2] [] in
  (exists w',
      read_while 1 s 4 t (read_poll s) AB w = (Ok AB, w')
      /\ abort_read_pending w' = []
      /\ (1 <= 1000 -> abort_read_pending w' = []))
  /\ (exists w',
         write 1 s hello w = (Ok 2, w')
         /\ abort_write_pending w' = []
         /\ (1 <= 1000 -> abort_write_pending w' = [])).
Proof.
  intros s t w.
  assert (Hfds : distinct_fds s) by (repeat split; intro H; discriminate H).
  assert (Herr : Z.land (dev_revents (next_round w)) POLL_ERRORS = 0)
    by reflexivity.
  destruct (@abort_is_normal_completion 0 s t w Hfds Herr) as [Hr Hw].
  split.
  - apply (Hr 4 AB); [reflexivity | intro H; discriminate H].
  - apply (Hw 5 hello 5 3 2);
      [lia | reflexivity | reflexivity | intro H; discriminate H
       | intro H; discriminate H].
Defined.

(** C2, as stated, fails: the drain reads at most 1000 bytes.  With 1001
    cancellations pending, [read] ends on the abort and leaves one byte
    in the pipe; the next [read], for which the device has data and
    nobody cancels, finds that byte and returns empty-handed without
    touching the device. *)
Lemma abort_not_fully_drained :
  let s := port (Some 1000000) None None in
  let w := mkWorld 0 (signals 1001) [] [mkRound 0 0 0 0; mkRound 10 select.POLLIN 0 0]
                   [AB ++ AB] [] [] in
  let first := read 1 s 4 w in
  let second := read 1 s 4 (snd first) in
  fst first = Ok []
  /\ abort_read_pending (snd first) = signals 1
  /\ fst second = Ok []
  /\ reads (snd second) = [AB ++ AB].
Proof. vm_compute. repeat split; reflexivity. Qed.

(** The other way C2 fails as stated: the device reports an error in the
    wait that reports the abort.  Its event comes first, [read] raises
    the device error, and the cancellation stays in the pipe. *)
Lemma abort_with_device_error :
  let s := port (Some 1000000) None None in
  let w := mkWorld 0 [] [] [mkRound 10 select.POLLHUP 1 0] [] [] [] in
  let r := read 1 s 4 w in
  fst r = Raise (SerialException "device reports error (poll)")
  /\ trace (snd r) = [SysPoll (Some 1000) [(7, 16); (8, 1)]]
  /\ abort_read_pending (snd r) = signals 1.
Proof. vm_compute. repeat split; reflexivity. Qed.

(** ** Device errors *)

(** C3. A wait that reports an error condition of the device (POLLERR,
    POLLHUP or POLLNVAL) ends the call with an exception and no partial
    result.  In [read] the exception is the device error.  In [write] it
    is not: the [except OSError] clause catches the device error, raised
    inside the [try], and what leaves [write] is the write-failed error
    that wraps its text. *)
Theorem device_error_read_and_write :
  forall (fuel : nat) (s : Serial) (timeout : Timeout) (w : World),
    distinct_fds s ->
    Z.land (dev_revents (next_round w)) POLL_ERRORS <> 0 ->
    (forall (size : Z) (rd : bytes),
        len rd < size ->
        fst (read_while (S fuel) s size timeout (read_poll s) rd w)
        = Raise (SerialException "device reports error (poll)"))
    /\ (forall (total_len : Z) (d : bytes) (tx_remaining took k : Z),
        0 < tx_remaining ->
        is_non_blocking timeout = false ->
        next_answer d w = Accept took k ->
        tx_remaining - Z.max 0 (Z.min k (len d)) <> 0 ->
        fst (write_while (S fuel) s total_len timeout (write_poll s) d
               tx_remaining w)
        = Raise (SerialException "write failed: device reports error (poll)")).
Proof.
  intros fuel s timeout w Hfds Herr. split.
  - intros size rd Hlt. apply read_device_error; assumption.
  - intros total_len d tx took k Htx Hnb Hw Hpart.
    rewrite (@write_accept_step fuel s total_len timeout d tx w took k
               Hfds Htx Hw), Hnb.
    destruct (Z.eqb_spec (tx - Z.max 0 (Z.min k (len d))) 0); [contradiction|].
    unfold wait_cases. rewrite dev_event_errors.
    change (next_round (after_write took _ w)) with (next_round w).
    destruct (Z.eqb_spec (Z.land (dev_revents (next_round w)) POLL_ERRORS) 0);
      [contradiction | reflexivity].
Qed.

Lemma device_error_read_and_write_witness :
  let s := port (Some 1000000) (Some 1000000) None in
  let t := new_Timeout (Some 1000000) 0 in
  let w := mkWorld 0 [] [] [mkRound 10 select.POLLERR 0 0] [] [Accept 3 2] [] in
  fst (read_while 1 s 4 t (read_poll s) AB w)
  = Raise (SerialException "device reports error (poll)")
  /\ fst (write 1 s hello w)
     = Raise (SerialException "write failed: device reports error (poll)").
Proof.
  intros s t w.
  assert (Hfds : distinct_fds s) by (repeat split; intro H; discriminate H).
  assert (Herr : Z.land (dev_revents (next_round w)) POLL_ERRORS <> 0)
    by (intro H; discriminate H).
  destruct (@device_error_read_and_write 0 s t w Hfds Herr) as [Hr Hw].
  split.
  - apply Hr. reflexivity.
  - apply (Hw 5 hello 5 3 2).
    + lia.
    + reflexivity.
    + reflexivity.
    + intro H; discriminate H.
Defined.

(** ** Write timeouts *)

(** C4. [write] in blocking mode with a finite timeout, after a write
    that leaves data to send, with no abort and no device error.  When
    the wait ends with nothing ready the time-out error is raised inside
    the [try], caught by the [except OSError] clause and replaced: what
    leaves [write] is [SerialException("write failed: Write timeout")],
    not [SerialTimeoutException].  When the device is ready and the
    deadline has passed at the end of the iteration, the check after the
    [try] raises [SerialTimeoutException("Write timeout")]. *)
Theorem write_timeout_paths :
  forall (fuel : nat) (s : Serial) (total_len dur t0 : Z) (d : bytes)
         (tx_remaining : Z) (w : World) (took k : Z),
    distinct_fds s ->
    dur <> 0 ->
    0 < tx_remaining ->
    next_answer d w = Accept took k ->
    tx_remaining - Z.max 0 (Z.min k (len d)) <> 0 ->
    abort_write_pending w ++ signals (cancel_write (next_round w)) = [] ->
    Z.land (dev_revents (next_round w)) POLL_ERRORS = 0 ->
    let timeout := new_Timeout (Some dur) t0 in
    let ev := dev_event (next_round w) mask_out in
    let w1 := after_write took
                (SysWriteOk (fd s) d (Z.max 0 (Z.min k (len d)))) w in
    let w2 := after_poll (poll_timeout_of timeout (clock w1)) [(fd s, ev)] w1 in
    let out := fst (write_while (S fuel) s total_len timeout (write_poll s) d
                      tx_remaining w) in
    (ev = 0 -> out = Raise (SerialException "write failed: Write timeout"))
    /\ (ev <> 0 -> expired timeout (clock w2) = true ->
        out = Raise (SerialTimeoutException "Write timeout")).
Proof.
  intros fuel s total_len dur t0 d tx w took k Hfds Hdur Htx Hw Hpart Hpipe Herr
         timeout ev w1 w2 out.
  destruct (finite_timeout t0 (clock w1) Hdur) as [Hnb [ms Hms]].
  fold timeout in Hnb, Hms.
  subst out.
  rewrite (@write_accept_step fuel s total_len timeout d tx w took k
             Hfds Htx Hw).
  fold w1. rewrite Hnb.
  destruct (Z.eqb_spec (tx - Z.max 0 (Z.min k (len d))) 0); [contradiction|].
  unfold wait_cases. rewrite Hpipe, dev_event_errors.
  change (next_round w1) with (next_round w). rewrite Herr. fold ev.
  cbv iota beta. simpl negb. cbv iota.
  split.
  - intros E. rewrite E, Z.eqb_refl, Hms. reflexivity.
  - intros E Hexp. destruct (Z.eqb_spec ev 0); [contradiction|].
    fold w2. rewrite Hexp. reflexivity.
Qed.

Lemma write_timeout_paths_witness :
  let s := port None (Some 1000000) None in
  let stalled := mkWorld 0 [] [] [mkRound 2000000 0 0 0] [] [Accept 3 2] [] in
  let slow := mkWorld 0 [] [] [mkRound 0 select.POLLOUT 0 0] []
                      [Accept 1000000 2] [] in
  fst (write 1 s hello stalled)
  = Raise (SerialException "write failed: Write timeout")
  /\ fst (write 1 s hello slow)
     = Raise (SerialTimeoutException "Write timeout").
Proof.
  intros s stalled slow.
  assert (Hfds : distinct_fds s) by (repeat split; intro H; discriminate H).
  split.
  - refine (proj1 (@write_timeout_paths 0 s 5 1000000 0 hello 5 stalled 3 2
                     Hfds _ _ _ _ _ _) _);
      try reflexivity; try lia.
  - refine (proj2 (@write_timeout_paths 0 s 5 1000000 0 hello 5 slow 1000000 2
                     Hfds _ _ _ _ _ _) _ _);
      try reflexivity; try lia; intro H; discriminate H.
Defined.

(** ** Non-blocking writes *)

(** C5, as amended. With the write timeout configured as non-blocking,
    [write] ends by itself, never waits, and returns right after the
    first [os.write] that does not fail, with the count that attempt
    took, which may be less than [len(data)]; every attempt before it
    failed with a tolerated error number and was made again.  The only
    error it can raise is the write-failed error for a system error
    that is not tolerated. *)
Theorem nonblocking_write :
  forall (s : Serial) (data : bytes) (w : World),
    is_open s = true ->
    distinct_fds s ->
    _write_timeout s = Some 0 ->
    fst (write (S (List.length (writes w))) s data w) <> OutOfFuel
    /\ forall (fuel : nat) (out : outcome Z) (w' : World),
        write fuel s data w = (out, w') ->
        polls w' = polls w
        /\ exists new,
            trace w' = trace w ++ new /\ nonblocking_result s data new out.
Proof.
  intros s data w Hopen Hfds Hnb.
  split; [apply write_enough_fuel; exact Hfds|].
  intros fuel out w' Hrun.
  unfold write in Hrun. rewrite Hopen, Hnb in Hrun.
  change (negb true) with false in Hrun.
  unfold bind, time_monotonic in Hrun. cbv iota beta zeta in Hrun.
  destruct data as [|b data'] eqn:Ed.
  - rewrite write_while_done in Hrun by reflexivity.
    injection Hrun as <- <-. split; [reflexivity|].
    exists []. rewrite app_nil_r. split; [reflexivity|].
    exists []. split; [constructor|]. split; [reflexivity|].
    change (len []) with 0. lia.
  - rewrite <- Ed in *.
    assert (Hpos : 0 < len data) by (subst data; unfold len; simpl; lia).
    exact (@nonblocking_write_while s (new_Timeout (Some 0) (clock w)) data fuel
             Hfds eq_refl Hpos w out w' Hrun).
Qed.

Lemma nonblocking_write_witness :
  let s := port None (Some 0) None in
  let w := mkWorld 0 [] [] [] []
             [Fail 3 errno.EAGAIN "Resource temporarily unavailable"; Accept 3 2] [] in
  let r := write 3 s hello w in
  fst r <> OutOfFuel
  /\ polls (snd r) = polls w
  /\ exists new, trace (snd r) = trace w ++ new
                 /\ nonblocking_result s hello new (Ok 2).
Proof.
  intros s w r.
  assert (Hfds : distinct_fds s) by (repeat split; intro H; discriminate H).
  destruct (@nonblocking_write s hello w eq_refl Hfds eq_refl) as [Hends Hret].
  split; [exact Hends|].
  apply (Hret 3%nat (Ok 2) (snd r)). reflexivity.
Defined.

(** C5, as stated, fails on the count of attempts: a non-blocking [write]
    whose first [os.write] fails with EAGAIN makes a second one, and
    returns what that one took. *)
Lemma nonblocking_write_retries :
  let s := port None (Some 0) None in
  let w := mkWorld 0 [] [] [] []
             [Fail 3 errno.EAGAIN "Resource temporarily unavailable"; Accept 3 2] [] in
  let r := write 2 s hello w in
  fst r = Ok 2
  /\ trace (snd r) = [SysWriteErr 7 hello 11; SysWriteOk 7 hello 2]
  /\ write_attempts (trace (snd r)) = 2%nat
  /\ ~ (write_attempts (trace (snd r)) <= 1)%nat.
Proof.
  vm_compute. repeat split; try reflexivity. intros H.
  inversion H as [|m H1]. inversion H1.
Qed.

(** ** A port that is not open *)

(** C6. On a port that is not open, [read] and [write] raise
    [PortNotOpenError] at once, whatever the size or the data, and leave
    the world as it was: no system call on the device or on the abort
    pipes. *)
Theorem port_not_open :
  forall (fuel : nat) (s : Serial) (size : Z) (data : bytes) (w : World),
    is_open s = false ->
    read fuel s size w = (Raise PortNotOpenError, w)
    /\ write fuel s data w = (Raise PortNotOpenError, w).
Proof.
  intros fuel s size data w Hclosed.
  unfold read, write. rewrite Hclosed. split; reflexivity.
Qed.

Lemma port_not_open_witness :
  is_open closed_port = false
  /\ read 3 closed_port 4 idle = (Raise PortNotOpenError, idle)
  /\ write 3 closed_port hello idle = (Raise PortNotOpenError, idle).
Proof.
  split; [reflexivity|].
  apply (port_not_open 3 closed_port 4 hello idle). reflexivity.
Defined.

(** ** Failures of the write system call *)

(** C7, as amended. When [os.write] fails inside the loop of [write]:
    with one of the tolerated error numbers (EAGAIN, EALREADY,
    EWOULDBLOCK, EINPROGRESS, EINTR) nothing is consumed and no wait is
    made; the check of the deadline that ends every iteration raises
    [SerialTimeoutException] when the write is not non-blocking and its
    deadline has passed, and otherwise the loop goes on at [os.write]
    with the same data still to send; with any other error number
    [write] raises at once [SerialException] with the message
    ["write failed: "] followed by the text of the system error. *)
Theorem write_syscall_failure :
  forall (fuel : nat) (s : Serial) (total_len : Z) (timeout : Timeout)
         (poll : list (Z * Z)) (d : bytes) (tx_remaining : Z) (w : World)
         (took e : Z) (msg : string),
    0 < tx_remaining ->
    next_answer d w = Fail took e msg ->
    let w1 := after_write took (SysWriteErr (fd s) d e) w in
    write_while (S fuel) s total_len timeout poll d tx_remaining w
    = if errno_is_transient (Some e) then
        if negb (is_non_blocking timeout) && expired timeout (clock w1) then
          (Raise (SerialTimeoutException "Write timeout"), w1)
        else write_while fuel s total_len timeout poll d tx_remaining w1
      else
        (Raise (SerialException ("write failed: " ++ str (OSError e msg))%string), w1).
Proof.
  intros fuel s total_len timeout poll d tx w took e msg Htx Hw.
  exact (@write_fail_step fuel s total_len timeout poll d tx w took e msg Htx Hw).
Qed.

Lemma write_syscall_failure_witness :
  let s := port None (Some 1000000) None in
  let t := new_Timeout (Some 1000000) 0 in
  let eagain := mkWorld 0 [] [] [] [] [Fail 3 errno.EAGAIN "Resource temporarily unavailable"] [] in
  let eio := mkWorld 0 [] [] [] [] [Fail 3 errno.EIO "Input/output error"] [] in
  write_while 2 s 5 t (write_poll s) hello 5 eagain
  = write_while 1 s 5 t (write_poll s) hello 5
      (after_write 3 (SysWriteErr 7 hello 11) eagain)
  /\ write_while 2 s 5 t (write_poll s) hello 5 eio
     = (Raise (SerialException "write failed: [Errno 5] Input/output error"),
        after_write 3 (SysWriteErr 7 hello 5) eio).
Proof.
  intros s t eagain eio. split.
  - apply (@write_syscall_failure 1 s 5 t (write_poll s) hello 5 eagain
             3 11 "Resource temporarily unavailable"); [lia | reflexivity].
  - apply (@write_syscall_failure 1 s 5 t (write_poll s) hello 5 eio
             3 5 "Input/output error"); [lia | reflexivity].
Defined.

(** C7, as stated, fails on what follows a tolerated failure: [write]
    does not wait again.  With a write timeout of one second and a device
    that a wait would find writable, a first [os.write] failing with
    EAGAIN is followed at once by the second [os.write], and the round
    of the wait is still to come when [write] returns; and when the
    failed call itself lasted until the deadline, the iteration ends
    with [SerialTimeoutException] and nothing is tried again. *)
Lemma tolerated_failure_is_not_followed_by_a_wait :
  let s := port None (Some 1000000) None in
  let writable := mkRound 10 select.POLLOUT 0 0 in
  let w := mkWorld 0 [] [] [writable] []
             [Fail 3 errno.EAGAIN "Resource temporarily unavailable"; Accept 3 5] [] in
  let late := mkWorld 0 [] [] [writable] []
                [Fail 1000000 errno.EAGAIN "Resource temporarily unavailable";
                 Accept 3 5] [] in
  let r := write 2 s hello w in
  let r' := write 2 s hello late in
  fst r = Ok 5
  /\ trace (snd r) = [SysWriteErr 7 hello 11; SysWriteOk 7 hello 5]
  /\ existsb is_wait (trace (snd r)) = false
  /\ polls (snd r) = [writable]
  /\ fst r' = Raise (SerialTimeoutException "Write timeout")
  /\ trace (snd r') = [SysWriteErr 7 hello 11]
  /\ writes (snd r') = [Accept 3 5].
Proof.
  vm_compute. repeat split; reflexivity.
Qed.

(** ** The inter-byte timeout *)



(** ** What [write] returns *)

(** C9. [write] ends by itself (it needs no more iterations than the
    script of the device is long, plus one) and what it returns is the
    number of bytes the device took during the call.  When the first
    [os.write] takes all the data, [write] returns [len(data)] after
    that one system call, in every timeout mode, with no wait. *)
Theorem write_returns_count :
  forall (fuel : nat) (s : Serial) (data : bytes) (w : World),
    is_open s = true ->
    distinct_fds s ->
    fst (write (S (List.length (writes w))) s data w) <> OutOfFuel
    /\ (forall (n : Z) (w' : World),
        write fuel s data w = (Ok n, w') ->
        exists new, trace w' = trace w ++ new /\ n = written new)
    /\ (forall (took k : Z),
           data <> [] ->
           next_answer data w = Accept took k ->
           len data <= k ->
           exists w',
             write (S fuel) s data w = (Ok (len data), w')
             /\ trace w' = trace w ++ [SysWriteOk (fd s) data (len data)]
             /\ polls w' = polls w).
Proof.
  intros fuel s data w Hopen Hfds.
  split; [apply write_enough_fuel; exact Hfds|]. split.
  - intros n w' Hrun.
    unfold write in Hrun. rewrite Hopen in Hrun.
    change (negb true) with false in Hrun.
    unfold bind, time_monotonic in Hrun. cbv iota beta zeta in Hrun.
    destruct (@write_while_written s (len data) _ Hfds fuel data (len data)
                w n w' eq_refl (fun _ => eq_refl) Hrun) as (new & Hnew & Hn).
    exists new. split; [exact Hnew | lia].
  - intros took k Hdata Hans Hall.
    assert (Hpos : 0 < len data).
    { destruct data; [contradiction|]. unfold len. simpl. lia. }
    unfold write. rewrite Hopen. change (negb true) with false.
    unfold bind, time_monotonic. cbv iota beta zeta.
    rewrite (@write_accept_step fuel s (len data) _ data (len data) w took k
               Hfds Hpos Hans).
    replace (Z.max 0 (Z.min k (len data))) with (len data) by lia.
    rewrite Z.sub_diag, Z.eqb_refl.
    rewrite drop_bytes_all by lia. change (len []) with 0. rewrite Z.sub_0_r.
    destruct (is_non_blocking _); eexists; repeat split; reflexivity.
Qed.

Lemma write_returns_count_witness :
  let s := port None (Some 1000000) None in
  let w := mkWorld 0 [] [] [mkRound 10 select.POLLOUT 0 0] [] [Accept 3 5] [] in
  fst (write 2 s hello w) <> OutOfFuel
  /\ (exists new, trace (snd (write 1 s hello w)) = trace w ++ new /\ 5 = written new)
  /\ (exists w',
         write 1 s hello w = (Ok 5, w')
         /\ trace w' = [SysWriteOk 7 hello 5]
         /\ polls w' = [mkRound 10 select.POLLOUT 0 0]).
Proof.
  intros s w.
  assert (Hfds : distinct_fds s) by (repeat split; intro H; discriminate H).
  split; [|split].
  - apply (proj1 (@write_returns_count 0 s hello w eq_refl Hfds)).
  - apply (proj1 (proj2 (@write_returns_count 1 s hello w eq_refl Hfds)) 5
             (snd (write 1 s hello w))).
    reflexivity.
  - apply (proj2 (proj2 (@write_returns_count 0 s hello w eq_refl Hfds)) 3 5).
    + intro H; discriminate H.
    + reflexivity.
    + intro H; discriminate H.
Defined.

(** ** Reading nothing *)

(** C10. On an open port [read(0)] returns the empty byte string with no
    iteration of the loop (no fuel is needed) and the world untouched: no
    wait and no read of the device, whatever the timeouts and whatever
    the device holds. *)
Theorem read_zero :
  forall (fuel : nat) (s : Serial) (w : World),
    is_open s = true ->
    read fuel s 0 w = (Ok [], w).
Proof.
  intros fuel s w Hopen. unfold read. rewrite Hopen. simpl.
  destruct fuel; reflexivity.
Qed.

Lemma read_zero_witness :
  is_open (port None None None) = true
  /\ read 0 (port None None None) 0
       (mkWorld 0 [] [] [mkRound 10 1 0 0] [AB] [] [])
     = (Ok [], mkWorld 0 [] [] [mkRound 10 1 0 0] [AB] [] []).
Proof.
  split; [reflexivity|].
  apply (read_zero 0 (port None None None)). reflexivity.
Defined.

(** * Further properties *)

(** ** The device path *)

Lemma strip_prefix_app (prefix rest : string) :
  strip_prefix prefix (prefix ++ rest)%string = Some rest.
Proof.
  induction prefix as [|a p IH]; simpl; [reflexivity|].
  rewrite Ascii.eqb_refl. exact IH.
Qed.

Lemma strip_prefix_none (p v : string) :
  String.prefix p v = false -> strip_prefix p v = None.
Proof.
  revert v. induction p as [|a p IH]; intros v H.
  - destruct v; discriminate H.
  - destruct v as [|b v]; [reflexivity|]. simpl in *.
    destruct (ascii_dec a b) as [->|Hab].
    + rewrite Ascii.eqb_refl. apply IH. exact H.
    + destruct (Ascii.eqb_spec a b); [contradiction | reflexivity].
Qed.

Lemma strip_prefix_some (p v rest : string) :
  strip_prefix p v = Some rest -> v = (p ++ rest)%string.
Proof.
  revert v. induction p as [|a p IH]; intros v H; simpl in *.
  - injection H as ->. reflexivity.
  - destruct v as [|b v]; [discriminate|].
    destruct (Ascii.eqb_spec a b) as [->|]; [|discriminate].
    rewrite (IH _ H). reflexivity.
Qed.

(** X1. The setter of [port] hands the base class the path without its
    [pollserial://] scheme, a path that does not start with the scheme
    as it is, and is not called at all for [None].  Whatever it hands
    over is the value itself or the value less one leading scheme. *)
Theorem port_setter_strips_scheme :
  forall (value path : string),
    port_setter None = None
    /\ port_setter (Some ("pollserial://" ++ path)%string) = Some path
    /\ (String.prefix "pollserial://" value = false ->
        port_setter (Some value) = Some value)
    /\ (port_setter (Some value) = Some path ->
        value = path \/ value = ("pollserial://" ++ path)%string).
Proof.
  intros value path. split; [reflexivity|]. split; [|split].
  - unfold port_setter, removeprefix.
    rewrite (strip_prefix_app "pollserial://" path). reflexivity.
  - intros H. unfold port_setter, removeprefix.
    rewrite (strip_prefix_none _ _ H). reflexivity.
  - unfold port_setter, removeprefix. intros H.
    destruct (strip_prefix "pollserial://" value) as [rest|] eqn:E.
    + right. injection H as <-. apply strip_prefix_some. exact E.
    + left. injection H as <-. reflexivity.
Qed.

Lemma port_setter_strips_scheme_witness :
  String.prefix "pollserial://" "/dev/ttyUSB0" = false
  /\ port_setter (Some "/dev/ttyUSB0") = Some "/dev/ttyUSB0"
  /\ port_setter (Some "pollserial://pollserial:///dev/ttyUSB0")
     = Some "pollserial:///dev/ttyUSB0"
  /\ ("pollserial://pollserial:///dev/ttyUSB0" = "pollserial:///dev/ttyUSB0"
      \/ "pollserial://pollserial:///dev/ttyUSB0"
         = ("pollserial://" ++ "pollserial:///dev/ttyUSB0")%string).
Proof.
  split; [reflexivity|]. split; [|split; [reflexivity|]].
  - apply (port_setter_strips_scheme "/dev/ttyUSB0" ""). reflexivity.
  - apply (port_setter_strips_scheme "pollserial://pollserial:///dev/ttyUSB0"
             "pollserial:///dev/ttyUSB0").
    reflexivity.
Defined.

(** ** Register words *)

Lemma fold_left_add_from (l : list Z) (acc : Z) :
  fold_left Z.add l acc = acc + fold_left Z.add l 0.
Proof.
  revert acc. induction l as [|x l IH]; intros acc; simpl; [lia|].
  rewrite (IH (acc + x)), (IH x). lia.
Qed.

Lemma sum_app (a b : list Z) : sum (a ++ b) = sum a + sum b.
Proof. unfold sum. rewrite fold_left_app. apply fold_left_add_from. Qed.

Lemma combine_app (A B : Type) (a1 a2 : list A) (b1 b2 : list B) :
  List.length a1 = List.length b1 ->
  combine (a1 ++ a2) (b1 ++ b2) = combine a1 b1 ++ combine a2 b2.
Proof.
  revert b1. induction a1 as [|x a1 IH]; intros [|y b1] H; simpl in *;
    try discriminate; [reflexivity|].
  rewrite IH by (injection H as H; exact H). reflexivity.
Qed.

Lemma enumerate_snoc (A : Type) (l : list A) (x : A) :
  enumerate (l ++ [x]) = enumerate l ++ [(Z.of_nat (List.length l), x)].
Proof.
  unfold enumerate. rewrite length_app, Nat.add_1_r, seq_S, map_app. simpl.
  rewrite combine_app by (rewrite length_map, length_seq; reflexivity).
  reflexivity.
Qed.

Lemma combine_little_endian_snoc (values : list Z) (v : Z) :
  combine_little_endian (values ++ [v])
  = combine_little_endian values
    + (v mod 65536) * 2 ^ (16 * Z.of_nat (List.length values)).
Proof.
  unfold combine_little_endian.
  rewrite enumerate_snoc, map_app, sum_app. f_equal.
  cbn [map fst snd]. unfold sum. cbn [fold_left]. rewrite Z.add_0_l.
  change 65535 with (Z.ones 16). rewrite Z.land_ones by lia.
  rewrite Z.shiftl_mul_pow2 by lia. reflexivity.
Qed.

Lemma split_words_S (int_value : Z) (n : nat) :
  split_words int_value (S n)
  = split_words int_value n
    ++ [(int_value / 2 ^ (16 * Z.of_nat n)) mod 65536].
Proof.
  unfold split_words. rewrite seq_S, map_app. f_equal.
  cbn [map Nat.add]. change 65535 with (Z.ones 16).
  rewrite Z.land_ones by lia.
  rewrite Z.shiftr_div_pow2 by lia. reflexivity.
Qed.

Lemma length_split_words (int_value : Z) (n : nat) :
  List.length (split_words int_value n) = n.
Proof. unfold split_words. rewrite length_map, length_seq. reflexivity. Qed.

Lemma pow_16_S (n : nat) : 2 ^ (16 * Z.of_nat (S n)) = 2 ^ (16 * Z.of_nat n) * 65536.
Proof.
  replace (16 * Z.of_nat (S n)) with (16 * Z.of_nat n + 16) by lia.
  rewrite Z.pow_add_r by lia. reflexivity.
Qed.

Lemma combine_split_words (int_value : Z) (n : nat) :
  combine_little_endian (split_words int_value n)
  = int_value mod 2 ^ (16 * Z.of_nat n).
Proof.
  induction n as [|n IH].
  - simpl. rewrite Z.mod_1_r. reflexivity.
  - rewrite split_words_S, combine_little_endian_snoc, IH, length_split_words.
    rewrite pow_16_S.
    assert (Hp : 0 < 2 ^ (16 * Z.of_nat n)) by (apply Z.pow_pos_nonneg; lia).
    rewrite Z.rem_mul_r by lia. rewrite Z.mod_mod by lia.
    rewrite (Z.mul_comm _ (2 ^ (16 * Z.of_nat n))). reflexivity.
Qed.

(** X2. The raw value [native_value] computes from the registers read
    is never negative and stays below [2 ^ (16 * n)] for [n] registers,
    whatever the values the controller gave, and the raw value of no
    register at all is 0. *)
Theorem combine_little_endian_range :
  forall (values : list Z),
    0 <= combine_little_endian values < 2 ^ (16 * Z.of_nat (List.length values))
    /\ combine_little_endian [] = 0.
Proof.
  intros values. split; [|reflexivity].
  induction values as [|v values IH] using rev_ind.
  - simpl. unfold combine_little_endian, sum. simpl. lia.
  - rewrite combine_little_endian_snoc, length_app, Nat.add_1_r, pow_16_S.
    pose proof (Z.mod_pos_bound v 65536 ltac:(lia)) as Hv.
    assert (Hp : 0 < 2 ^ (16 * Z.of_nat (List.length values)))
      by (apply Z.pow_pos_nonneg; lia).
    nia.
Qed.

Lemma word_of_mod (x : Z) (n k : nat) :
  (k < n)%nat ->
  Z.land (Z.shiftr (x mod 2 ^ (16 * Z.of_nat n)) (16 * Z.of_nat k)) 65535
  = Z.land (Z.shiftr x (16 * Z.of_nat k)) 65535.
Proof.
  intros Hk. apply Z.bits_inj'. intros i Hi.
  rewrite !Z.land_spec, !Z.shiftr_spec by exact Hi.
  change 65535 with (Z.ones 16).
  destruct (Z.ltb_spec i 16) as [Hlow|Hhigh].
  - rewrite Z.mod_pow2_bits_low by lia. reflexivity.
  - rewrite Z.ones_spec_high by lia. rewrite !andb_false_r. reflexivity.
Qed.

Lemma split_words_mod (x : Z) (n : nat) :
  split_words (x mod 2 ^ (16 * Z.of_nat n)) n = split_words x n.
Proof.
  unfold split_words. apply map_ext_in. intros k Hk.
  apply in_seq in Hk. apply word_of_mod. lia.
Qed.

Lemma split_combine_words (values : list Z) :
  split_words (combine_little_endian values) (List.length values)
  = map (fun v => v mod 65536) values.
Proof.
  induction values as [|v values IH] using rev_ind; [reflexivity|].
  rewrite length_app, Nat.add_1_r, split_words_S, map_app.
  rewrite combine_little_endian_snoc.
  set (n := List.length values) in *.
  set (B := 2 ^ (16 * Z.of_nat n)).
  assert (HB : 0 < B) by (apply Z.pow_pos_nonneg; lia).
  destruct (combine_little_endian_range values) as [Hc _]. fold n B in Hc.
  f_equal.
  - rewrite <- IH, <- (split_words_mod (_ + _) n). fold B.
    rewrite Z.mod_add by lia. rewrite Z.mod_small by exact Hc. reflexivity.
  - cbn [map]. rewrite Z.div_add by lia. rewrite Z.div_small by exact Hc.
    rewrite Z.add_0_l, Z.mod_mod by lia. reflexivity.
Qed.

(** X3. What [async_set_native_value] sends for [int_value] reads back
    through [native_value] as [int_value] modulo [2 ^ (16 * n)], [n]
    being the number of registers: a value that fits the registers
    makes the round trip unchanged, a negative one comes back as its
    two's complement. *)
Theorem written_value_reads_back :
  forall (addresses : list Z) (int_value : Z) (c : ControllerCall),
    set_registers addresses int_value = Some c ->
    let width := 2 ^ (16 * Z.of_nat (List.length addresses)) in
    native_value_raw (Some (ReadList (sent_values c))) = Some (int_value mod width)
    /\ (0 <= int_value < width ->
        native_value_raw (Some (ReadList (sent_values c))) = Some int_value).
Proof.
  intros addresses int_value c Hset width.
  assert (H : native_value_raw (Some (ReadList (sent_values c)))
              = Some (int_value mod width)).
  { unfold set_registers in Hset. subst width.
    destruct addresses as [|a [|b rest]]; [discriminate| |].
    - injection Hset as <-. cbn [sent_values native_value_raw].
      change [int_value] with ([] ++ [int_value]).
      rewrite combine_little_endian_snoc.
      change (combine_little_endian []) with 0.
      change (2 ^ (16 * Z.of_nat (List.length (@nil Z)))) with 1.
      change (2 ^ (16 * Z.of_nat (List.length [a]))) with 65536.
      rewrite Z.add_0_l, Z.mul_1_r. reflexivity.
    - cbn [List.length Nat.eqb] in Hset. injection Hset as <-.
      cbn [sent_values native_value_raw].
      rewrite combine_split_words. reflexivity. }
  split; [exact H|]. intros Hfit. rewrite H, Z.mod_small by exact Hfit.
  reflexivity.
Qed.

Lemma written_value_reads_back_witness :
  set_registers [41001; 41002] (-2) = Some (write_registers 41001 [65534; 65535])
  /\ native_value_raw (Some (ReadList [65534; 65535])) = Some ((-2) mod 2 ^ 32)
  /\ set_registers [41001; 41002] 70000 = Some (write_registers 41001 [4464; 1])
  /\ native_value_raw (Some (ReadList [4464; 1])) = Some 70000.
Proof.
  split; [reflexivity|]. split; [|split; [reflexivity|]].
  - apply (proj1 (@written_value_reads_back [41001; 41002] (-2)
                    (write_registers 41001 [65534; 65535]) eq_refl)).
  - apply (proj2 (@written_value_reads_back [41001; 41002] 70000
                    (write_registers 41001 [4464; 1]) eq_refl)).
    split; [lia | reflexivity].
Defined.

(** X4. Reading registers and writing the raw value back to as many
    registers sends each register the 16 low bits of what was read:
    the words [async_set_native_value] makes of a raw value are the
    registers the value was made of. *)
Theorem raw_value_writes_back :
  forall (values : list Z),
    split_words (combine_little_endian values) (List.length values)
    = map (fun v => Z.land v 65535) values.
Proof.
  intros values. rewrite split_combine_words.
  apply map_ext. intros v. change 65535 with (Z.ones 16).
  rewrite Z.land_ones by lia. reflexivity.
Qed.

(** X5. The call [async_set_native_value] makes: with no register the
    indexing fails; with one register the value goes out as it is, not
    cut to 16 bits; with more, as many words as there are registers go
    out to the first address, each between 0 and 65535. *)
Theorem set_registers_shape :
  forall (addresses : list Z) (int_value : Z),
    match set_registers addresses int_value with
    | None => addresses = []
    | Some (write_register a value) => addresses = [a] /\ value = int_value
    | Some (write_registers a words) =>
        hd_error addresses = Some a
        /\ (2 <= List.length addresses)%nat
        /\ List.length words = List.length addresses
        /\ Forall (fun word => 0 <= word <= 65535) words
    end.
Proof.
  intros addresses int_value. unfold set_registers.
  destruct addresses as [|a [|b rest]]; [reflexivity | split; reflexivity |].
  cbn [List.length Nat.eqb].
  split; [reflexivity|]. split; [cbn [List.length]; lia|].
  split; [apply length_split_words|].
  unfold split_words. apply Forall_map, Forall_forall. intros i _.
  change 65535 with (Z.ones 16). rewrite Z.land_ones by lia.
  pose proof (Z.mod_pos_bound (Z.shiftr int_value (16 * Z.of_nat i)) (2 ^ 16)
                eq_refl) as Hw.
  change (2 ^ 16) with 65536 in *. change (Z.ones 16) with 65535. lia.
Qed.

(** ** What a whole [read] does and never does *)

Lemma poll_time_nonneg (r : Round) (events : list (Z * Z)) (t : option Z) :
  0 <= poll_time r events t.
Proof. unfold poll_time. destruct t, events; lia. Qed.

(** One wait never lasts beyond what the timeout has left. *)
Lemma poll_time_within (r : Round) (events : list (Z * Z)) (d t0 now : Z) :
  poll_time r events (poll_timeout_of (new_Timeout (Some d) t0) now)
  <= Z.max 0 (t0 + d - now).
Proof.
  assert (Hdiv : forall x, 0 <= x -> Z.max 0 (x / 1000) * 1000 <= x).
  { intros x Hx. pose proof (Z.mul_div_le x 1000 ltac:(lia)).
    pose proof (Z.div_pos x 1000 Hx ltac:(lia)). lia. }
  assert (Hmin : forall e x, 0 <= x ->
                   Z.max 0 (Z.min e (x / 1000 * 1000)) <= x).
  { intros e x Hx. pose proof (Z.mul_div_le x 1000 ltac:(lia)). lia. }
  unfold poll_timeout_of, time_left, new_Timeout, poll_time.
  destruct d; cbn [is_infinite is_non_blocking target_time].
  - destruct events; cbn; lia.
  - destruct events; [apply Hdiv | apply Hmin]; lia.
  - destruct events; [apply Hdiv | apply Hmin]; lia.
Qed.

Lemma clock_after_poll (t : option Z) (events : list (Z * Z)) (w : World) :
  clock (after_poll t events w) = clock w + poll_time (next_round w) events t.
Proof. reflexivity. Qed.

Lemma poll_timeout_infinite (t0 now : Z) :
  poll_timeout_of (new_Timeout None t0) now = None.
Proof. reflexivity. Qed.

Lemma poll_timeout_finite (d t0 now : Z) :
  exists ms, poll_timeout_of (new_Timeout (Some d) t0) now = Some ms.
Proof. destruct d; eexists; reflexivity. Qed.

Section ReadFacts.
Variable s : Serial.
Variable size : Z.
Variable dur : option Z.
Variable t0 : Z.
Hypothesis Hfds : distinct_fds s.

(** What every run of the loop of [read] keeps, whatever its end. *)
Lemma read_while_facts (fuel : nat) :
  forall (rd : bytes) (w : World) (out : outcome bytes) (w' : World),
    read_while fuel s size (new_Timeout dur t0) (read_poll s) rd w = (out, w') ->
    exists new,
      trace w' = trace w ++ new
      /\ write_attempts new = O
      /\ writes w' = writes w
      /\ (exists extra, abort_write_pending w' = abort_write_pending w ++ extra)
      /\ clock w <= clock w'
      /\ (forall d, dur = Some d -> clock w' <= Z.max (clock w) (t0 + d))
      /\ (dur = None -> timed_out_waits new = O)
      /\ match out with
         | Ok bs => bs = rd ++ device_bytes s new
         | Raise e => e = SerialException "device reports error (poll)"
         | Blocked => dur = None
         | OutOfFuel => True
         end.
Proof.
  destruct Hfds as (Hfr & Hfw & Hrw).
  assert (Efr : (fd s =? pipe_abort_read_r s) = false) by (apply Z.eqb_neq; exact Hfr).
  assert (Efw : (fd s =? pipe_abort_write_r s) = false) by (apply Z.eqb_neq; exact Hfw).
  assert (Erf : (pipe_abort_read_r s =? fd s) = false)
    by (apply Z.eqb_neq; intro E; apply Hfr; symmetry; exact E).
  induction fuel as [|fuel IH]; intros rd w out w' Hrun.
  - simpl in Hrun. destruct (len rd <? size); injection Hrun as <- <-;
      exists []; rewrite !app_nil_r;
      (repeat split; try reflexivity; try lia; try (exists []; rewrite app_nil_r; reflexivity)).
  - rewrite read_while_S in Hrun.
    destruct (len rd <? size).
    2:{ injection Hrun as <- <-. exists []. rewrite !app_nil_r.
        repeat split; try reflexivity; try lia.
        exists []. rewrite app_nil_r. reflexivity. }
    unfold bind at 1 in Hrun. rewrite (wait_read Hfds) in Hrun.
    unfold wait_cases in Hrun.
    set (t := poll_timeout_of (new_Timeout dur t0) (clock w)) in *.
    set (r := next_round w) in *.
    set (ev := dev_event r mask_in) in *.
    assert (Hclock : forall events,
               clock w <= clock (after_poll t events w)
               /\ forall d, dur = Some d ->
                    clock (after_poll t events w) <= Z.max (clock w) (t0 + d)).
    { intros events. rewrite clock_after_poll.
      pose proof (poll_time_nonneg (next_round w) events t).
      split; [lia|]. intros d Hd. subst t. rewrite Hd.
      pose proof (poll_time_within (next_round w) events d t0 (clock w)). lia. }
    destruct (Z.eqb_spec (Z.land ev POLL_ERRORS) 0) as [E1|E1]; cbn [negb] in Hrun.
    2:{ injection Hrun as <- <-. eexists [SysPoll t _].
        destruct (Hclock
          ((if ev =? 0 then [] else [(fd s, ev)]) ++
           match abort_read_pending w ++ signals (cancel_read r) with
           | [] => []
           | _ :: _ => [(pipe_abort_read_r s, select.POLLIN)]
           end)) as [Hc1 Hc2].
        split; [reflexivity|]. split; [reflexivity|]. split; [reflexivity|].
        split; [eexists; reflexivity|]. split; [exact Hc1|]. split; [exact Hc2|].
        split; [|reflexivity].
        intros _. destruct (Z.eqb_spec ev 0) as [E0|_]; [|reflexivity].
        exfalso. exact (@land_nonzero ev POLL_ERRORS E1 E0). }
    destruct (abort_read_pending w ++ signals (cancel_read r)) as [|b pend] eqn:Ep.
    + destruct (Z.eqb_spec ev 0) as [E0|E0].
      * destruct t as [ms|] eqn:Et.
        -- injection Hrun as <- <-. exists [SysPoll (Some ms) []].
           destruct (Hclock []) as [Hc1 Hc2].
           split; [reflexivity|]. split; [reflexivity|]. split; [reflexivity|].
           split; [eexists; reflexivity|]. split; [exact Hc1|]. split; [exact Hc2|].
           split; [|rewrite app_nil_r; reflexivity].
           intros Hd. subst dur. discriminate Et.
        -- injection Hrun as <- <-. exists [SysPollForever].
           split; [reflexivity|]. split; [reflexivity|]. split; [reflexivity|].
           split; [eexists; reflexivity|]. cbn [log after_cancels clock].
           split; [lia|]. split; [intros d Hd; lia|]. split; [reflexivity|].
           destruct dur as [d|]; [|reflexivity].
           destruct (poll_timeout_finite d t0 (clock w)) as [ms Hms].
           fold t in Hms. rewrite Hms in Et. discriminate Et.
      * cbv iota beta in Hrun.
        set (w2 := after_poll t [(fd s, ev)] w) in *.
        destruct (Hclock [(fd s, ev)]) as [Hc1 Hc2]. fold w2 in Hc1, Hc2.
        unfold bind at 1 in Hrun. unfold os_read in Hrun.
        rewrite Efr, Efw, Z.eqb_refl in Hrun.
        set (n := size - len rd) in *.
        assert (Hstep : forall buf w3 outk,
                   trace w3 = trace w ++ [SysPoll t [(fd s, ev)]; SysRead (fd s) n buf] ->
                   writes w3 = writes w ->
                   abort_write_pending w3 = abort_write_pending w2 ->
                   clock w3 = clock w2 ->
                   (if truthy (_inter_byte_timeout s) && (len buf =? 0)
                    then ret (rd ++ buf)
                    else read_while fuel s size (new_Timeout dur t0) (read_poll s)
                           (rd ++ buf)) w3 = (outk, w') ->
                   exists new,
                     trace w' = trace w ++ new
                     /\ write_attempts new = O
                     /\ writes w' = writes w
                     /\ (exists extra,
                            abort_write_pending w' = abort_write_pending w ++ extra)
                     /\ clock w <= clock w'
                     /\ (forall d, dur = Some d -> clock w' <= Z.max (clock w) (t0 + d))
                     /\ (dur = None -> timed_out_waits new = O)
                     /\ match outk with
                        | Ok bs => bs = rd ++ device_bytes s new
                        | Raise e => e = SerialException "device reports error (poll)"
                        | Blocked => dur = None
                        | OutOfFuel => True
                        end).
        { intros buf w3 outk Htr Hwr Hab Hck Hk.
          destruct (truthy (_inter_byte_timeout s) && (len buf =? 0)).
          - injection Hk as <- <-. eexists. split; [exact Htr|].
            split; [reflexivity|]. split; [exact Hwr|].
            split; [rewrite Hab; eexists; reflexivity|].
            rewrite Hck. split; [exact Hc1|]. split; [exact Hc2|].
            split; [intros _; reflexivity|].
            cbn [device_bytes]. rewrite Z.eqb_refl, app_nil_r. reflexivity.
          - apply IH in Hk.
            destruct Hk as (new & Hnew & Hwa & Hw & (extra & Hex) & Hcl & Hdl & Hto & Hout).
            exists ([SysPoll t [(fd s, ev)]; SysRead (fd s) n buf] ++ new).
            split; [rewrite Hnew, Htr, <- app_assoc; reflexivity|].
            split; [exact Hwa|]. split; [rewrite Hw; exact Hwr|].
            split; [rewrite Hex, Hab; cbn [w2 after_poll log advance after_cancels
                                           abort_write_pending];
                    rewrite <- app_assoc; eexists; reflexivity|].
            rewrite Hck in *. split; [lia|].
            split; [intros d Hd; specialize (Hdl d Hd); specialize (Hc2 d Hd); lia|].
            split; [exact Hto|].
            destruct outk; try exact Hout.
            cbn [app device_bytes]. rewrite Z.eqb_refl, Hout, app_assoc.
            reflexivity. }
        destruct (reads w2) as [|chunk rest] eqn:Er.
        -- cbv zeta in Hrun. eapply Hstep; [| | | |exact Hrun]; try reflexivity.
           cbn [log trace w2 after_poll advance after_cancels].
           rewrite <- app_assoc. reflexivity.
        -- cbv zeta in Hrun. eapply Hstep; [| | | |exact Hrun]; try reflexivity.
           cbn [log trace w2 after_poll advance after_cancels].
           rewrite <- app_assoc. reflexivity.
    + cbv iota beta in Hrun. unfold bind, time_monotonic, ret in Hrun.
      cbn [in_TIMEOUT_ABORT orb] in Hrun.
      injection Hrun as <- <-.
      unfold os_read. rewrite Z.eqb_refl.
      set (events := (if ev =? 0 then [] else [(fd s, ev)])
                     ++ [(pipe_abort_read_r s, select.POLLIN)]).
      destruct (Hclock events) as [Hc1 Hc2].
      eexists [SysPoll t events; SysRead (pipe_abort_read_r s) 1000 _].
      split; [cbn [snd log trace after_poll advance after_cancels];
              rewrite <- app_assoc; reflexivity|].
      split; [reflexivity|]. split; [reflexivity|].
      split; [eexists; reflexivity|].
      split; [exact Hc1|]. split; [exact Hc2|].
      split; [intros _; subst events; destruct (ev =? 0); reflexivity|].
      cbn [device_bytes]. rewrite Erf, app_nil_r. reflexivity.
Qed.

End ReadFacts.

Lemma final_in (tr : list Syscall) (e : Syscall) : final tr = Some e -> In e tr.
Proof.
  unfold final. intros H. apply in_rev.
  destruct (rev tr) as [|x l]; [discriminate|].
  injection H as ->. left. reflexivity.
Qed.

Lemma no_timed_out_wait (tr : list Syscall) (t : option Z) :
  timed_out_waits tr = O -> ~ In (SysPoll t []) tr.
Proof.
  induction tr as [|e tr IH]; intros H Hin; [exact Hin|].
  destruct Hin as [->|Hin]; [discriminate H|].
  apply IH; [|exact Hin].
  destruct e as [t' [|ev evs]| | | |]; simpl in H; try exact H. discriminate H.
Qed.

(** The timeout a wait is given, with a timeout of [d] configured at
    [t0]: whole milliseconds, not negative and no more than [d]. *)
Lemma poll_timeout_bounded (d t0 now ms : Z) :
  t0 <= now ->
  poll_timeout_of (new_Timeout (Some d) t0) now = Some ms ->
  0 <= ms /\ ms * 1000 <= Z.max 0 d.
Proof.
  intros Hnow H.
  assert (Hdiv : forall x, 0 <= x -> 0 <= x / 1000 /\ x / 1000 * 1000 <= x).
  { intros x Hx. pose proof (Z.mul_div_le x 1000 ltac:(lia)).
    pose proof (Z.div_pos x 1000 Hx ltac:(lia)). lia. }
  unfold poll_timeout_of, time_left, new_Timeout in H.
  destruct d; cbn [is_infinite is_non_blocking target_time] in H;
    injection H as <-;
    match goal with
    | |- context [?x / 1000] => destruct (Hdiv x ltac:(lia)); lia
    end.
Qed.

Lemma waits_bounded_app (b : Z) (l1 l2 : list Syscall) :
  waits_bounded b (l1 ++ l2) = waits_bounded b l1 && waits_bounded b l2.
Proof. apply forallb_app. Qed.

(** A read takes no time and logs no wait. *)
Lemma os_read_log (s : Serial) (desc n : Z) (w : World) (b : Z) :
  clock (snd (os_read s desc n w)) = clock w
  /\ exists new,
      trace (snd (os_read s desc n w)) = trace w ++ new
      /\ waits_bounded b new = true.
Proof.
  unfold os_read.
  destruct (desc =? pipe_abort_read_r s);
    [split; [reflexivity | eexists [_]; split; reflexivity]|].
  destruct (desc =? pipe_abort_write_r s);
    [split; [reflexivity | eexists [_]; split; reflexivity]|].
  destruct (desc =? fd s).
  - destruct (reads w); (split; [reflexivity | eexists [_]; split; reflexivity]).
  - split; [reflexivity|]. exists []. rewrite app_nil_r. split; reflexivity.
Qed.

(** One wait under a timeout of [d] configured at [t0]: it comes back,
    the clock does not run backwards, and what it logs is bounded. *)
Lemma wait_cases_waits (s : Serial) (d t0 m pipe : Z) (pend : bytes) (w : World)
    (out : outcome _PollResult) (w' : World) :
  t0 <= clock w ->
  wait_cases s (new_Timeout (Some d) t0) m pipe pend w = (out, w') ->
  out <> Blocked
  /\ clock w <= clock w'
  /\ exists new,
      trace w' = trace w ++ new /\ waits_bounded (Z.max 0 d) new = true.
Proof.
  intros Hnow H. unfold wait_cases in H.
  destruct (poll_timeout_finite d t0 (clock w)) as [ms Hms].
  destruct (@poll_timeout_bounded d t0 (clock w) ms Hnow Hms) as [H0 H1].
  rewrite Hms in H. cbv zeta in H.
  assert (Hb : forall evs, bounded_wait (Z.max 0 d) (SysPoll (Some ms) evs) = true).
  { intros evs. cbn [bounded_wait]. apply andb_true_iff.
    split; apply Z.leb_le; assumption. }
  assert (Hc : forall evs, clock w <= clock (after_poll (Some ms) evs w)).
  { intros evs. rewrite clock_after_poll.
    pose proof (poll_time_nonneg (next_round w) evs (Some ms)). lia. }
  assert (Hone : forall evs,
             exists new,
               trace (after_poll (Some ms) evs w) = trace w ++ new
               /\ waits_bounded (Z.max 0 d) new = true).
  { intros evs. exists [SysPoll (Some ms) evs]. split; [reflexivity|].
    cbn [waits_bounded forallb]. rewrite Hb. reflexivity. }
  destruct (negb (Z.land (dev_event (next_round w) m) POLL_ERRORS =? 0)).
  { injection H as <- <-. split; [discriminate|]. split; [apply Hc | apply Hone]. }
  destruct pend as [|b pend].
  - destruct (dev_event (next_round w) m =? 0); injection H as <- <-;
      (split; [discriminate|]; split; [apply Hc | apply Hone]).
  - injection H as <- <-.
    match goal with
    | |- context [os_read s pipe 1000 (after_poll (Some ms) ?evs w)] =>
        destruct (os_read_log s pipe 1000 (after_poll (Some ms) evs w) (Z.max 0 d))
          as [Hck (new & Hnew & Hwb)];
        destruct (Hone evs) as (new0 & Hnew0 & Hwb0)
    end.
    split; [discriminate|]. split; [rewrite Hck; apply Hc|].
    exists (new0 ++ new). split.
    + rewrite Hnew, Hnew0, app_assoc. reflexivity.
    + rewrite waits_bounded_app, Hwb0, Hwb. reflexivity.
Qed.

Section ReadWaits.
Variable s : Serial.
Variable size : Z.
Variable d : Z.
Variable t0 : Z.
Hypothesis Hfds : distinct_fds s.

(** Every wait of the loop of [read] is bounded by the timeout. *)
Lemma read_while_waits (fuel : nat) :
  forall (rd : bytes) (w : World) (out : outcome bytes) (w' : World),
    t0 <= clock w ->
    read_while fuel s size (new_Timeout (Some d) t0) (read_poll s) rd w = (out, w') ->
    exists new,
      trace w' = trace w ++ new /\ waits_bounded (Z.max 0 d) new = true.
Proof.
  assert (Hnil : forall w : World,
             exists new,
               trace w = trace w ++ new /\ waits_bounded (Z.max 0 d) new = true).
  { intros w. exists []. rewrite app_nil_r. split; reflexivity. }
  induction fuel as [|fuel IH]; intros rd w out w' Hnow Hrun.
  - simpl in Hrun. destruct (len rd <? size); injection Hrun as <- <-; apply Hnil.
  - rewrite read_while_S in Hrun.
    destruct (len rd <? size); [|injection Hrun as <- <-; apply Hnil].
    unfold bind at 1 in Hrun. rewrite (wait_read Hfds) in Hrun.
    destruct (wait_cases s (new_Timeout (Some d) t0) mask_in (pipe_abort_read_r s)
                (abort_read_pending w ++ signals (cancel_read (next_round w))) w)
      as [r1 w1] eqn:Hw.
    destruct (@wait_cases_waits s d t0 mask_in (pipe_abort_read_r s) _ w r1 w1 Hnow Hw)
      as (_ & Hc1 & new1 & Hn1 & Hb1).
    assert (Hstop : exists new,
               trace w1 = trace w ++ new /\ waits_bounded (Z.max 0 d) new = true)
      by (exists new1; split; assumption).
    destruct r1 as [[| |]|e| |]; cbv beta iota in Hrun.
    + unfold bind, time_monotonic, ret in Hrun.
      cbn [in_TIMEOUT_ABORT orb] in Hrun. injection Hrun as <- <-. exact Hstop.
    + unfold bind, time_monotonic, ret in Hrun.
      cbn [in_TIMEOUT_ABORT orb] in Hrun. injection Hrun as <- <-. exact Hstop.
    + unfold bind at 1 in Hrun.
      destruct (os_read_log s (fd s) (size - len rd) w1 (Z.max 0 d))
        as [Hck (new2 & Hn2 & Hb2)].
      destruct (os_read s (fd s) (size - len rd) w1) as [ob w2].
      cbn [snd] in Hck, Hn2.
      assert (Hmid : exists new,
                 trace w2 = trace w ++ new /\ waits_bounded (Z.max 0 d) new = true).
      { exists (new1 ++ new2). split.
        - rewrite Hn2, Hn1, app_assoc. reflexivity.
        - rewrite waits_bounded_app, Hb1, Hb2. reflexivity. }
      destruct ob as [buf|e| |]; cbv beta iota zeta in Hrun;
        try (injection Hrun as <- <-; exact Hmid).
      destruct (truthy (_inter_byte_timeout s) && (len buf =? 0)).
      * injection Hrun as <- <-. exact Hmid.
      * apply IH in Hrun; [|lia].
        destruct Hrun as (new3 & Hn3 & Hb3).
        destruct Hmid as (new12 & Hn12 & Hb12).
        exists (new12 ++ new3). split.
        -- rewrite Hn3, Hn12, app_assoc. reflexivity.
        -- rewrite waits_bounded_app, Hb12, Hb3. reflexivity.
    + injection Hrun as <- <-. exact Hstop.
    + injection Hrun as <- <-. exact Hstop.
    + injection Hrun as <- <-. exact Hstop.
Qed.

End ReadWaits.

Section ReadCalls.
Variable s : Serial.
Variable size : Z.
Variable w : World.
Hypothesis Hopen : is_open s = true.
Hypothesis Hfds : distinct_fds s.

Lemma read_unfold (fuel : nat) :
  read fuel s size w
  = read_while fuel s size (new_Timeout (_timeout s) (clock w)) (read_poll s) [] w.
Proof. unfold read. rewrite Hopen. reflexivity. Qed.

(** X6. What [read] returns is the bytes its reads of the device gave,
    all of them and in their order: nothing is lost, repeated or
    reordered, and no byte of an abort pipe gets into the result. *)
Theorem read_returns_device_bytes :
  forall (fuel : nat) (bs : bytes) (w' : World),
    read fuel s size w = (Ok bs, w') ->
    exists new, trace w' = trace w ++ new /\ bs = device_bytes s new.
Proof.
  intros fuel bs w' Hrun. rewrite read_unfold in Hrun.
  destruct (@read_while_facts s size _ _ Hfds fuel _ _ _ _ Hrun)
    as (new & Hnew & _ & _ & _ & _ & _ & _ & Hout).
  exists new. split; [exact Hnew | exact Hout].
Qed.

(** X8. [read] keeps to its side of the port: it never writes to the
    device and never takes a byte out of the write-abort pipe, so a
    cancellation meant for a write is still pending after it. *)
Theorem read_keeps_to_its_side :
  forall (fuel : nat) (out : outcome bytes) (w' : World),
    read fuel s size w = (out, w') ->
    writes w' = writes w
    /\ (exists extra, abort_write_pending w' = abort_write_pending w ++ extra)
    /\ exists new, trace w' = trace w ++ new /\ write_attempts new = O.
Proof.
  intros fuel out w' Hrun. rewrite read_unfold in Hrun.
  destruct (@read_while_facts s size _ _ Hfds fuel _ _ _ _ Hrun)
    as (new & Hnew & Hwa & Hw & Hex & _).
  split; [exact Hw|]. split; [exact Hex|]. exists new. split; assumption.
Qed.

(** X9. With a read timeout of [d] microseconds, every wait [read] makes
    is given a timeout, of whole milliseconds that are not negative and
    come to no more than [d]: however far the call has got and however
    it goes on, it never calls [poll] without a timeout, so no wait of
    its own keeps it for ever, and no single wait is asked to last
    longer than the timeout of the port; with [d = 0] every wait is
    [poll(0)].  Nothing is said of when the call returns: the loop does
    not look at the deadline after a wait that found the device
    readable. *)
Theorem read_respects_timeout :
  forall (d : Z),
    _timeout s = Some d ->
    forall (fuel : nat) (out : outcome bytes) (w' : World),
      read fuel s size w = (out, w') ->
      out <> Blocked
      /\ exists new,
          trace w' = trace w ++ new /\ waits_bounded (Z.max 0 d) new = true.
Proof.
  intros d Hd fuel out w' Hrun. rewrite read_unfold, Hd in Hrun.
  split.
  - destruct (@read_while_facts s size _ _ Hfds fuel _ _ _ _ Hrun)
      as (new & _ & _ & _ & _ & _ & _ & _ & Hout).
    intros ->. discriminate Hout.
  - exact (@read_while_waits s size d (clock w) Hfds fuel [] w out w'
             (Z.le_refl _) Hrun).
Qed.

End ReadCalls.

(** X10. With no read timeout, [read] returns fewer bytes than asked
    for only after an abort or, with an inter-byte timeout configured,
    after a read of the device that gave nothing; it never gives up
    for lack of data. *)
Theorem read_without_timeout_is_patient :
  forall (fuel : nat) (s : Serial) (size : Z) (w : World) (bs : bytes) (w' : World),
    is_open s = true ->
    distinct_fds s ->
    _timeout s = None ->
    read fuel s size w = (Ok bs, w') ->
    len bs < size ->
    exists new,
      trace w' = trace w ++ new
      /\ (ended_by_abort (pipe_abort_read_r s) new = true
          \/ ended_by_empty_read s new = true).
Proof.
  intros fuel s size w bs w' Hopen Hfds Hnone Hrun Hshort.
  rewrite (@read_unfold s size w Hopen fuel), Hnone in Hrun.
  assert (Hlt : len [] < size) by (pose proof (len_nonneg bs); change (len []) with 0; lia).
  destruct (@read_while_length s size _ Hfds fuel _ _ _ _ Hlt Hrun)
    as (new & Hnew & _ & _ & Hiff).
  destruct (@read_while_facts s size _ _ Hfds fuel _ _ _ _ Hrun)
    as (new2 & Hnew2 & _ & _ & _ & _ & _ & Hto & _).
  assert (new2 = new) by (apply (app_inv_head (trace w)); congruence). subst new2.
  specialize (Hto eq_refl).
  exists new. split; [exact Hnew|].
  destruct (stopped_early s new) eqn:Hstop;
    [|exfalso; destruct Hiff as [_ Hiff]; specialize (Hiff eq_refl); lia].
  unfold stopped_early in Hstop. apply orb_true_iff in Hstop.
  destruct Hstop as [Hta|He]; [left | right; exact He].
  unfold ended_by_timeout_or_abort in Hta. unfold ended_by_abort.
  destruct (final new) as [[t [|ev evs]| |desc n got| |]|] eqn:Hfin;
    try discriminate Hta; try exact Hta.
  exfalso. apply (no_timed_out_wait new t Hto). apply final_in. exact Hfin.
Qed.

(** ** What a whole [write] does and never does *)

Lemma firstn_plus (A : Type) (n m : nat) (l : list A) :
  firstn (n + m) l = firstn n l ++ firstn m (skipn n l).
Proof.
  revert l. induction n as [|n IH]; intros l; [reflexivity|].
  destruct l as [|x l]; [simpl; rewrite firstn_nil; reflexivity|].
  simpl. rewrite IH. reflexivity.
Qed.

Lemma take_bytes_add (a b : Z) (d : bytes) :
  0 <= a -> 0 <= b ->
  take_bytes a d ++ take_bytes b (drop_bytes a d) = take_bytes (a + b) d.
Proof.
  intros Ha Hb. unfold take_bytes, drop_bytes.
  rewrite Z2Nat.inj_add by assumption. symmetry. apply firstn_plus.
Qed.

Lemma ended_by_abort_app (pipe : Z) (a b : list Syscall) :
  ended_by_abort pipe b = true -> ended_by_abort pipe (a ++ b) = true.
Proof.
  unfold ended_by_abort. intros H.
  destruct b as [|e b]; [discriminate H|].
  rewrite final_app by discriminate. exact H.
Qed.

Lemma expired_never (t0 now : Z) : expired (new_Timeout None t0) now = false.
Proof. reflexivity. Qed.

Lemma non_blocking_iff (dur : option Z) (t0 : Z) :
  is_non_blocking (new_Timeout dur t0) = true <-> dur = Some 0.
Proof.
  destruct dur as [[| |]|]; simpl; split; intros H; try discriminate H;
    reflexivity.
Qed.

Section WriteFacts.
Variable s : Serial.
Variable total_len : Z.
Variable dur : option Z.
Variable t0 : Z.
Hypothesis Hfds : distinct_fds s.

(** What every run of the loop of [write] keeps, whatever its end. *)
Lemma write_while_facts (fuel : nat) :
  forall (d : bytes) (tx_remaining : Z) (w : World) (out : outcome Z) (w' : World),
    tx_remaining = len d ->
    (dur = Some 0 -> total_len = len d) ->
    write_while fuel s total_len (new_Timeout dur t0) (write_poll s) d
      tx_remaining w = (out, w') ->
    exists new,
      trace w' = trace w ++ new
      /\ device_reads s new = O
      /\ reads w' = reads w
      /\ (exists extra, abort_read_pending w' = abort_read_pending w ++ extra)
      /\ 0 <= written new <= len d
      /\ accepted new = take_bytes (written new) d
      /\ starts_with_write new = true
      /\ no_wait_after_failure new = true
      /\ write_end s total_len dur d new out.
Proof.
  destruct Hfds as (Hfr & Hfw & Hrw).
  assert (Ewf : (pipe_abort_write_r s =? fd s) = false)
    by (apply Z.eqb_neq; intro E; apply Hfw; symmetry; exact E).
  assert (Ewr : (pipe_abort_write_r s =? pipe_abort_read_r s) = false)
    by (apply Z.eqb_neq; intro E; apply Hrw; symmetry; exact E).
  assert (Hnil : forall d w, 
             exists new, trace w = trace w ++ new
               /\ device_reads s new = O /\ reads w = reads w
               /\ (exists extra, abort_read_pending w = abort_read_pending w ++ extra)
               /\ 0 <= written new <= len d
               /\ accepted new = take_bytes (written new) d
               /\ starts_with_write new = true
               /\ no_wait_after_failure new = true
               /\ new = []).
  { intros d w. exists []. rewrite !app_nil_r. pose proof (len_nonneg d).
    repeat split; try reflexivity; try (simpl; lia).
    exists []. rewrite app_nil_r. reflexivity. }
  induction fuel as [|fuel IH]; intros d tx w out w' Htx Hnb Hrun.
  - simpl in Hrun.
    destruct (Hnil d w) as (new & H1 & H2 & H3 & H4 & H5 & H6 & H7 & H8 & ->).
    destruct (Z.ltb_spec 0 tx); injection Hrun as <- <-;
      exists []; repeat (split; [assumption|]); [exact I|].
    split; [simpl; lia|]. intros _ Hlt. simpl in Hlt. lia.
  - destruct (Z.ltb_spec 0 tx) as [Hpos|Hzero].
    2:{ rewrite write_while_done in Hrun by exact Hzero.
        injection Hrun as <- <-.
        destruct (Hnil d w) as (new & H1 & H2 & H3 & H4 & H5 & H6 & H7 & H8 & ->).
        exists []. repeat (split; [assumption|]).
        split; [simpl; lia|]. intros _ Hlt. simpl in Hlt. lia. }
    destruct (next_answer d w) as [took k|took e msg] eqn:Hans.
    + rewrite (@write_accept_step fuel s total_len _ d tx w took k
                 Hfds Hpos Hans) in Hrun.
      set (n0 := Z.max 0 (Z.min k (len d))) in *.
      assert (Hn0 : 0 <= n0 <= len d) by (pose proof (len_nonneg d); lia).
      set (w1 := after_write took (SysWriteOk (fd s) d n0) w) in *.
      assert (Hone : forall tail,
                 device_reads s tail = O ->
                 written tail = 0 ->
                 accepted tail = [] ->
                 no_wait_after_failure tail = true ->
                 device_reads s (SysWriteOk (fd s) d n0 :: tail) = O
                 /\ 0 <= written (SysWriteOk (fd s) d n0 :: tail) <= len d
                 /\ accepted (SysWriteOk (fd s) d n0 :: tail)
                    = take_bytes (written (SysWriteOk (fd s) d n0 :: tail)) d
                 /\ starts_with_write (SysWriteOk (fd s) d n0 :: tail) = true
                 /\ no_wait_after_failure (SysWriteOk (fd s) d n0 :: tail) = true
                 /\ written (SysWriteOk (fd s) d n0 :: tail) = n0).
      { intros tail Hd Hwr Hacc Hno. cbn [device_reads written accepted
          starts_with_write is_write no_wait_after_failure].
        rewrite Hwr, Hacc, Z.add_0_r, app_nil_r.
        repeat split; try assumption; try reflexivity; lia. }
      destruct (is_non_blocking (new_Timeout dur t0)) eqn:Enb.
      { injection Hrun as <- <-. apply non_blocking_iff in Enb.
        destruct (Hone [] eq_refl eq_refl eq_refl eq_refl)
          as (H2 & H5 & H6 & H7 & H8 & H9).
        exists [SysWriteOk (fd s) d n0].
        split; [reflexivity|]. split; [exact H2|]. split; [reflexivity|].
        split; [exists []; rewrite app_nil_r; reflexivity|].
        split; [exact H5|]. split; [exact H6|]. split; [exact H7|].
        split; [exact H8|].
        split; [rewrite H9, (Hnb Enb); lia | intros Hne; contradiction]. }
      destruct (Z.eqb_spec (tx - n0) 0) as [Hdone|Hleft].
      { injection Hrun as <- <-.
        destruct (Hone [] eq_refl eq_refl eq_refl eq_refl)
          as (H2 & H5 & H6 & H7 & H8 & H9).
        exists [SysWriteOk (fd s) d n0].
        split; [reflexivity|]. split; [exact H2|]. split; [reflexivity|].
        split; [exists []; rewrite app_nil_r; reflexivity|].
        split; [exact H5|]. split; [exact H6|]. split; [exact H7|].
        split; [exact H8|].
        split; [rewrite H9, len_drop_bytes by exact Hn0; lia|].
        intros _ Hlt. rewrite H9 in Hlt. lia. }
      unfold wait_cases in Hrun.
      change (next_round w1) with (next_round w) in Hrun.
      set (t := poll_timeout_of (new_Timeout dur t0) (clock w1)) in *.
      set (ev := dev_event (next_round w) mask_out) in *.
      destruct (Z.eqb_spec (Z.land ev POLL_ERRORS) 0) as [E1|E1];
        cbn [negb] in Hrun.
      2:{ injection Hrun as <- <-.
          eexists [SysWriteOk (fd s) d n0; SysPoll t _].
          destruct (Hone [SysPoll t
                      ((if ev =? 0 then [] else [(fd s, ev)]) ++
                       match abort_write_pending w ++
                             signals (cancel_write (next_round w)) with
                       | [] => []
                       | _ :: _ => [(pipe_abort_write_r s, select.POLLIN)]
                       end)] eq_refl eq_refl eq_refl eq_refl)
            as (H2 & H5 & H6 & H7 & H8 & H9).
          split; [cbn [after_poll log trace w1 after_write advance after_cancels];
                  rewrite <- !app_assoc; reflexivity|].
          split; [exact H2|]. split; [reflexivity|].
          split; [eexists; reflexivity|].
          split; [exact H5|]. split; [exact H6|]. split; [exact H7|].
          split; [exact H8|].
          split; [apply WE_device | intros _; split; discriminate]. }
      destruct (abort_write_pending w ++ signals (cancel_write (next_round w)))
        as [|b pend] eqn:Ep.
      * destruct (Z.eqb_spec ev 0) as [E0|E0].
        -- destruct t as [ms|] eqn:Et; injection Hrun as <- <-.
           ++ exists [SysWriteOk (fd s) d n0; SysPoll (Some ms) []].
              destruct (Hone [SysPoll (Some ms) []] eq_refl eq_refl eq_refl eq_refl)
                as (H2 & H5 & H6 & H7 & H8 & H9).
              split; [cbn [after_poll log trace w1 after_write advance after_cancels];
                      rewrite <- !app_assoc; reflexivity|].
              split; [exact H2|]. split; [reflexivity|].
              split; [eexists; reflexivity|].
              split; [exact H5|]. split; [exact H6|]. split; [exact H7|].
              split; [exact H8|].
              split; [apply WE_wait|]. intros Hd. subst dur. discriminate Et.
           ++ exists [SysWriteOk (fd s) d n0; SysPollForever].
              destruct (Hone [SysPollForever] eq_refl eq_refl eq_refl eq_refl)
                as (H2 & H5 & H6 & H7 & H8 & H9).
              split; [cbn [log trace w1 after_write after_cancels];
                      rewrite <- !app_assoc; reflexivity|].
              split; [exact H2|]. split; [reflexivity|].
              split; [eexists; reflexivity|].
              split; [exact H5|]. split; [exact H6|]. split; [exact H7|].
              split; [exact H8|].
              cbn [write_end]. destruct dur as [dd|]; [|reflexivity].
              destruct (poll_timeout_finite dd t0 (clock w1)) as [ms Hms].
              fold t in Hms. rewrite Hms in Et. discriminate Et.
        -- set (w2 := after_poll t [(fd s, ev)] w1) in *.
           destruct (expired (new_Timeout dur t0) (clock w2)) eqn:Hexp.
           ++ injection Hrun as <- <-.
              exists [SysWriteOk (fd s) d n0; SysPoll t [(fd s, ev)]].
              destruct (Hone [SysPoll t [(fd s, ev)]] eq_refl eq_refl eq_refl eq_refl)
                as (H2 & H5 & H6 & H7 & H8 & H9).
              split; [cbn [w2 after_poll log trace w1 after_write advance after_cancels];
                      rewrite <- !app_assoc; reflexivity|].
              split; [exact H2|]. split; [reflexivity|].
              split; [eexists; reflexivity|].
              split; [exact H5|]. split; [exact H6|]. split; [exact H7|].
              split; [exact H8|].
              split; [apply WE_deadline|]. intros Hd. subst dur.
              rewrite expired_never in Hexp. discriminate Hexp.
           ++ apply IH in Hrun;
                [| rewrite len_drop_bytes by exact Hn0; lia
                 | intros Hd; apply (proj2 (non_blocking_iff dur t0)) in Hd;
                   congruence].
              destruct Hrun as (new & Hnew & Hdr & Hrd & (extra & Hex) & Hwr & Hacc
                                & Hsw & Hno & Hend).
              rewrite len_drop_bytes in Hwr by exact Hn0.
              exists (SysWriteOk (fd s) d n0 :: SysPoll t [(fd s, ev)] :: new).
              split; [rewrite Hnew;
                      cbn [w2 after_poll log trace w1 after_write advance after_cancels];
                      rewrite <- !app_assoc; reflexivity|].
              split; [exact Hdr|]. split; [exact Hrd|].
              split; [rewrite Hex;
                      change (abort_read_pending w2)
                        with (abort_read_pending w
                              ++ signals (cancel_read (next_round w)));
                      rewrite <- app_assoc; eexists; reflexivity|].
              cbn [written accepted starts_with_write is_write no_wait_after_failure].
              split; [lia|].
              split; [rewrite Hacc; apply take_bytes_add; lia|].
              split; [reflexivity|]. split; [exact Hno|].
              destruct out as [n|e| |]; cbn [write_end written] in *.
              ** destruct Hend as [Hn Hab].
                 rewrite len_drop_bytes in Hn, Hab by exact Hn0.
                 split; [lia|]. intros Hne Hlt.
                 apply (ended_by_abort_app _ [_; _]).
                 apply Hab; [exact Hne | lia].
              ** exact Hend.
              ** exact Hend.
              ** exact I.
      * unfold os_read in Hrun. rewrite Ewr, Z.eqb_refl in Hrun.
        injection Hrun as <- <-.
        set (events := (if ev =? 0 then [] else [(fd s, ev)])
                       ++ [(pipe_abort_write_r s, select.POLLIN)]).
        eexists [SysWriteOk (fd s) d n0; SysPoll t events;
                 SysRead (pipe_abort_write_r s) 1000 _].
        split; [cbn [snd after_poll log trace w1 after_write advance after_cancels];
                rewrite <- !app_assoc; reflexivity|].
        cbn [device_reads written accepted starts_with_write is_write
             no_wait_after_failure].
        rewrite Ewf, Z.add_0_r, app_nil_r.
        split; [reflexivity|]. split; [reflexivity|].
        split; [eexists; reflexivity|].
        split; [lia|]. split; [reflexivity|]. split; [reflexivity|].
        split; [reflexivity|].
        cbn [write_end written]. rewrite Z.add_0_r.
        split; [rewrite len_drop_bytes by exact Hn0; lia|].
        intros _ _. unfold ended_by_abort.
        match goal with |- context [final [?a; ?b; ?c]] =>
          change [a; b; c] with ([a; b] ++ [c]) end.
        rewrite final_snoc. apply Z.eqb_refl.
    + rewrite (@write_fail_step fuel s total_len _ (write_poll s) d tx w took e msg
                 Hpos Hans) in Hrun.
      set (w1 := after_write took (SysWriteErr (fd s) d e) w) in *.
      destruct (errno_is_transient (Some e)) eqn:He.
      * destruct (negb (is_non_blocking (new_Timeout dur t0))
                  && expired (new_Timeout dur t0) (clock w1)) eqn:Hexp.
        -- injection Hrun as <- <-. exists [SysWriteErr (fd s) d e].
           pose proof (len_nonneg d).
           split; [reflexivity|]. split; [reflexivity|]. split; [reflexivity|].
           split; [exists []; rewrite app_nil_r; reflexivity|].
           split; [simpl; lia|]. split; [reflexivity|]. split; [reflexivity|].
           split; [reflexivity|].
           split; [apply WE_deadline|]. intros Hd. subst dur.
           rewrite expired_never, andb_false_r in Hexp. discriminate Hexp.
        -- apply IH in Hrun; [|exact Htx|exact Hnb].
           destruct Hrun as (new & Hnew & Hdr & Hrd & Hex & Hwr & Hacc
                             & Hsw & Hno & Hend).
           exists (SysWriteErr (fd s) d e :: new).
           split; [rewrite Hnew; cbn [w1 after_write log trace];
                   rewrite <- app_assoc; reflexivity|].
           cbn [device_reads written accepted starts_with_write is_write
                no_wait_after_failure].
           split; [exact Hdr|]. split; [exact Hrd|]. split; [exact Hex|].
           split; [exact Hwr|]. split; [exact Hacc|]. split; [reflexivity|].
           split.
           { rewrite Hno, andb_true_r. destruct new as [|x new']; [reflexivity|].
             cbn [starts_with_write] in Hsw. destruct x; try discriminate Hsw;
               reflexivity. }
           destruct out as [n|ex| |]; cbn [write_end written] in *; try exact Hend.
           destruct Hend as [Hn Hab]. split; [exact Hn|].
           intros Hne Hlt. apply (ended_by_abort_app _ [_]). apply Hab; assumption.
      * injection Hrun as <- <-. exists [SysWriteErr (fd s) d e].
        pose proof (len_nonneg d).
        split; [reflexivity|]. split; [reflexivity|]. split; [reflexivity|].
        split; [exists []; rewrite app_nil_r; reflexivity|].
        split; [simpl; lia|]. split; [reflexivity|]. split; [reflexivity|].
        split; [reflexivity|].
        split; [apply WE_system; exact He|].
        intros _. split; intro Heq; [discriminate Heq|].
        cbn [str append] in Heq. discriminate Heq.
Qed.

End WriteFacts.

Section WriteWaits.
Variable s : Serial.
Variable total_len : Z.
Variable dd : Z.
Variable t0 : Z.
Hypothesis Hfds : distinct_fds s.

(** Every wait of the loop of [write] is bounded by the timeout. *)
Lemma write_while_waits (fuel : nat) :
  forall (d : bytes) (tx_remaining : Z) (w : World) (out : outcome Z) (w' : World),
    t0 <= clock w ->
    write_while fuel s total_len (new_Timeout (Some dd) t0) (write_poll s) d
      tx_remaining w = (out, w') ->
    exists new,
      trace w' = trace w ++ new /\ waits_bounded (Z.max 0 dd) new = true.
Proof.
  assert (Hnil : forall w : World,
             exists new,
               trace w = trace w ++ new /\ waits_bounded (Z.max 0 dd) new = true).
  { intros w. exists []. rewrite app_nil_r. split; reflexivity. }
  induction fuel as [|fuel IH]; intros d tx w out w' Hnow Hrun.
  - simpl in Hrun. destruct (0 <? tx); injection Hrun as <- <-; apply Hnil.
  - destruct (Z.ltb_spec 0 tx) as [Hpos|Hzero].
    2:{ rewrite write_while_done in Hrun by exact Hzero.
        injection Hrun as <- <-. apply Hnil. }
    destruct (next_answer d w) as [took k|took e msg] eqn:Hans.
    + rewrite (@write_accept_step fuel s total_len _ d tx w took k
                 Hfds Hpos Hans) in Hrun.
      set (n0 := Z.max 0 (Z.min k (len d))) in *.
      set (w1 := after_write took (SysWriteOk (fd s) d n0) w) in *.
      assert (Hnow1 : t0 <= clock w1) by (cbn [w1 after_write log clock]; lia).
      assert (Hfirst : exists new,
                 trace w1 = trace w ++ new /\ waits_bounded (Z.max 0 dd) new = true).
      { exists [SysWriteOk (fd s) d n0]. split; reflexivity. }
      destruct (is_non_blocking (new_Timeout (Some dd) t0));
        [injection Hrun as <- <-; exact Hfirst|].
      destruct (tx - n0 =? 0); [injection Hrun as <- <-; exact Hfirst|].
      destruct (wait_cases s (new_Timeout (Some dd) t0) mask_out (pipe_abort_write_r s)
                  (abort_write_pending w ++ signals (cancel_write (next_round w))) w1)
        as [r1 w2] eqn:Hw.
      destruct (@wait_cases_waits s dd t0 mask_out (pipe_abort_write_r s) _ w1 r1 w2
                  Hnow1 Hw) as (_ & Hc2 & new2 & Hn2 & Hb2).
      assert (Hmid : exists new,
                 trace w2 = trace w ++ new /\ waits_bounded (Z.max 0 dd) new = true).
      { destruct Hfirst as (new1 & Hn1 & Hb1). exists (new1 ++ new2). split.
        - rewrite Hn2, Hn1, app_assoc. reflexivity.
        - rewrite waits_bounded_app, Hb1, Hb2. reflexivity. }
      destruct r1 as [[| |]|e| |]; try (injection Hrun as <- <-; exact Hmid).
      destruct (expired (new_Timeout (Some dd) t0) (clock w2));
        [injection Hrun as <- <-; exact Hmid|].
      apply IH in Hrun; [|lia].
      destruct Hrun as (new3 & Hn3 & Hb3). destruct Hmid as (new12 & Hn12 & Hb12).
      exists (new12 ++ new3). split.
      * rewrite Hn3, Hn12, app_assoc. reflexivity.
      * rewrite waits_bounded_app, Hb12, Hb3. reflexivity.
    + rewrite (@write_fail_step fuel s total_len _ (write_poll s) d tx w took e msg
                 Hpos Hans) in Hrun.
      set (w1 := after_write took (SysWriteErr (fd s) d e) w) in *.
      assert (Hnow1 : t0 <= clock w1) by (cbn [w1 after_write log clock]; lia).
      assert (Hfirst : exists new,
                 trace w1 = trace w ++ new /\ waits_bounded (Z.max 0 dd) new = true).
      { exists [SysWriteErr (fd s) d e]. split; reflexivity. }
      destruct (errno_is_transient (Some e));
        [|injection Hrun as <- <-; exact Hfirst].
      destruct (negb (is_non_blocking (new_Timeout (Some dd) t0))
                && expired (new_Timeout (Some dd) t0) (clock w1));
        [injection Hrun as <- <-; exact Hfirst|].
      apply IH in Hrun; [|exact Hnow1].
      destruct Hrun as (new3 & Hn3 & Hb3). destruct Hfirst as (new1 & Hn1 & Hb1).
      exists (new1 ++ new3). split.
      * rewrite Hn3, Hn1, app_assoc. reflexivity.
      * rewrite waits_bounded_app, Hb1, Hb3. reflexivity.
Qed.

End WriteWaits.

Section WriteCalls.
Variable s : Serial.
Variable data : bytes.
Variable w : World.
Hypothesis Hopen : is_open s = true.
Hypothesis Hfds : distinct_fds s.

Lemma write_unfold (fuel : nat) :
  write fuel s data w
  = write_while fuel s (len data) (new_Timeout (_write_timeout s) (clock w))
      (write_poll s) data (len data) w.
Proof. unfold write. rewrite Hopen. reflexivity. Qed.

Lemma write_facts (fuel : nat) (out : outcome Z) (w' : World) :
  write fuel s data w = (out, w') ->
  exists new,
    trace w' = trace w ++ new
    /\ device_reads s new = O
    /\ reads w' = reads w
    /\ (exists extra, abort_read_pending w' = abort_read_pending w ++ extra)
    /\ 0 <= written new <= len data
    /\ accepted new = take_bytes (written new) data
    /\ starts_with_write new = true
    /\ no_wait_after_failure new = true
    /\ write_end s (len data) (_write_timeout s) data new out.
Proof.
  intros Hrun. rewrite write_unfold in Hrun.
  exact (@write_while_facts s (len data) _ _ Hfds fuel data (len data) w out w'
           eq_refl (fun _ => eq_refl) Hrun).
Qed.

(** X11. The count [write] returns lies between 0 and [len(data)], and
    the bytes the device took during the call, put end to end, are the
    first [n] bytes of [data]: whatever the retries and the partial
    writes, nothing is sent twice, skipped or reordered. *)
Theorem write_sends_data_in_order :
  forall (fuel : nat) (n : Z) (w' : World),
    write fuel s data w = (Ok n, w') ->
    0 <= n <= len data
    /\ exists new, trace w' = trace w ++ new /\ accepted new = take_bytes n data.
Proof.
  intros fuel n w' Hrun.
  destruct (write_facts fuel Hrun)
    as (new & Hnew & _ & _ & _ & Hwr & Hacc & _ & _ & Hn & _).
  assert (Hn' : n = written new) by lia. clear Hn. subst n.
  split; [exact Hwr|]. exists new. split; assumption.
Qed.

(** X12. Unless the write timeout is configured as non-blocking, [write]
    returns a count short of [len(data)] only when it was aborted: the
    last thing it did was to read the write-abort pipe. *)
Theorem blocking_write_is_short_only_on_abort :
  forall (fuel : nat) (n : Z) (w' : World),
    _write_timeout s <> Some 0 ->
    write fuel s data w = (Ok n, w') ->
    n < len data ->
    exists new,
      trace w' = trace w ++ new
      /\ ended_by_abort (pipe_abort_write_r s) new = true.
Proof.
  intros fuel n w' Hblocking Hrun Hshort.
  destruct (write_facts fuel Hrun)
    as (new & Hnew & _ & _ & _ & _ & _ & _ & _ & Hn & Hab).
  exists new. split; [exact Hnew|]. apply Hab; [exact Hblocking | lia].
Qed.

(** X13. On an open port [write] raises nothing but the time-out of the
    deadline check and the write-failed error, the latter around a
    time-out of the wait, a device error or a system error that is not
    tolerated: no [OSError], tolerated or not, leaves it as it came. *)
Theorem write_raises_its_own_errors_only :
  forall (fuel : nat) (e : exn) (w' : World),
    write fuel s data w = (Raise e, w') ->
    write_error e.
Proof.
  intros fuel e w' Hrun.
  destruct (write_facts fuel Hrun)
    as (new & _ & _ & _ & _ & _ & _ & _ & _ & He & _).
  exact He.
Qed.

(** X14. What the write timeout rules out, however far the call has got
    and however it goes on.  With a timeout of [d] microseconds
    configured, every wait [write] makes is given a timeout, of whole
    milliseconds that are not negative and come to no more than [d], so
    [write] is never held by a wait without one; with no timeout
    configured it never raises a time-out, in either of its forms.
    Nothing is said of whether the call ends: the loop goes on for as
    long as [os.write] fails with a tolerated error and the deadline,
    if there is one, has not passed. *)
Theorem write_timeout_modes :
  forall (fuel : nat) (out : outcome Z) (w' : World),
    write fuel s data w = (out, w') ->
    (forall d, _write_timeout s = Some d ->
       out <> Blocked
       /\ exists new,
           trace w' = trace w ++ new /\ waits_bounded (Z.max 0 d) new = true)
    /\ (_write_timeout s = None ->
        out <> Raise (SerialTimeoutException "Write timeout")
        /\ out <> Raise (SerialException "write failed: Write timeout")).
Proof.
  intros fuel out w' Hrun.
  destruct (write_facts fuel Hrun)
    as (new & _ & _ & _ & _ & _ & _ & _ & _ & Hend).
  split.
  - intros d Hd. split.
    + intros ->. cbn [write_end] in Hend. congruence.
    + rewrite write_unfold, Hd in Hrun.
      exact (@write_while_waits s (len data) d (clock w) Hfds fuel data (len data)
               w out w' (Z.le_refl _) Hrun).
  - intros Hnone. destruct out as [n|e| |]; try (split; discriminate).
    destruct Hend as [_ He]. destruct (He Hnone) as [H1 H2].
    split; intros Heq; injection Heq as ->; contradiction.
Qed.

(** X15. [write] keeps to its side of the port: it never reads the
    device and never takes a byte out of the read-abort pipe, so a
    cancellation meant for a read is still pending after it. *)
Theorem write_keeps_to_its_side :
  forall (fuel : nat) (out : outcome Z) (w' : World),
    write fuel s data w = (out, w') ->
    reads w' = reads w
    /\ (exists extra, abort_read_pending w' = abort_read_pending w ++ extra)
    /\ exists new, trace w' = trace w ++ new /\ device_reads s new = O.
Proof.
  intros fuel out w' Hrun.
  destruct (write_facts fuel Hrun) as (new & Hnew & Hdr & Hrd & Hex & _).
  split; [exact Hrd|]. split; [exact Hex|]. exists new. split; assumption.
Qed.

(** X16. In [write] every iteration starts with an [os.write], and an
    [os.write] that fails is never followed by a wait: after a
    tolerated failure the next system call is the next attempt. *)
Theorem write_retries_without_waiting :
  forall (fuel : nat) (out : outcome Z) (w' : World),
    write fuel s data w = (out, w') ->
    exists new,
      trace w' = trace w ++ new
      /\ starts_with_write new = true
      /\ no_wait_after_failure new = true.
Proof.
  intros fuel out w' Hrun.
  destruct (write_facts fuel Hrun)
    as (new & Hnew & _ & _ & _ & _ & _ & Hsw & Hno & _).
  exists new. repeat split; assumption.
Qed.

End WriteCalls.

(** X17. A call with nothing to transfer does nothing: [read] of a size
    that is zero or negative returns the empty byte string, [write] of
    the empty byte string returns 0, and neither makes a system call,
    whatever the timeouts. *)
Theorem nothing_to_transfer :
  forall (fuel : nat) (s : Serial) (size : Z) (w : World),
    is_open s = true ->
    size <= 0 ->
    read fuel s size w = (Ok [], w) /\ write fuel s [] w = (Ok 0, w).
Proof.
  intros fuel s size w Hopen Hsize. split.
  - rewrite (@read_unfold s size w Hopen fuel).
    apply read_while_done. change (len []) with 0. exact Hsize.
  - rewrite (@write_unfold s [] w Hopen fuel).
    apply write_while_done. change (len []) with 0. lia.
Qed.

(** ** Instances *)

Lemma read_returns_device_bytes_witness :
  let s := port (Some 100000) None None in
  let w := mkWorld 0 (signals 1) [] [mkRound 10 select.POLLIN 0 0] [AB ++ AB] [] [] in
  let w' := snd (read 1 s 4 w) in
  exists new, trace w' = trace w ++ new /\ [] = device_bytes s new.
Proof.
  intros s w w'.
  assert (Hfds : distinct_fds s) by (repeat split; intro H; discriminate H).
  apply (@read_returns_device_bytes s 4 w eq_refl Hfds 1 [] w').
  vm_compute. reflexivity.
Defined.

Lemma read_keeps_to_its_side_witness :
  let s := port (Some 100000) None None in
  let w := mkWorld 0 [] (signals 1) [mkRound 10 select.POLLIN 0 1] [AB]
                   [Accept 3 2] [] in
  let w' := snd (read 1 s 2 w) in
  writes w' = [Accept 3 2]
  /\ (exists extra, abort_write_pending w' = signals 1 ++ extra)
  /\ exists new, trace w' = trace w ++ new /\ write_attempts new = O.
Proof.
  intros s w w'.
  assert (Hfds : distinct_fds s) by (repeat split; intro H; discriminate H).
  apply (@read_keeps_to_its_side s 2 w eq_refl Hfds 1 (Ok AB) w').
  vm_compute. reflexivity.
Defined.

Lemma read_respects_timeout_witness :
  let s := port (Some 100500) None None in
  let w := mkWorld 50 [] [] [mkRound 10 select.POLLIN 0 0; mkRound 10 0 0 0]
                   [AB] [] [] in
  let w' := snd (read 2 s 4 w) in
  @Ok bytes AB <> Blocked
  /\ exists new,
      trace w' = trace w ++ new /\ waits_bounded (Z.max 0 100500) new = true.
Proof.
  intros s w w'.
  assert (Hfds : distinct_fds s) by (repeat split; intro H; discriminate H).
  apply (@read_respects_timeout s 4 w eq_refl Hfds 100500 eq_refl 2 (Ok AB) w').
  vm_compute. reflexivity.
Defined.

Lemma read_without_timeout_is_patient_witness :
  let s := port None None None in
  let w := mkWorld 0 [] [] [mkRound 500000 0 1 0] [AB] [] [] in
  let w' := snd (read 1 s 4 w) in
  len [] < 4
  /\ exists new,
      trace w' = trace w ++ new
      /\ (ended_by_abort 8 new = true \/ ended_by_empty_read s new = true).
Proof.
  intros s w w'. split; [reflexivity|].
  assert (Hfds : distinct_fds s) by (repeat split; intro H; discriminate H).
  apply (@read_without_timeout_is_patient 1 s 4 w [] w' eq_refl Hfds eq_refl).
  - vm_compute. reflexivity.
  - reflexivity.
Defined.

Lemma write_sends_data_in_order_witness :
  let s := port None (Some 1000000) None in
  let w := mkWorld 0 [] [] [mkRound 10 0 0 1] [] [Accept 3 2] [] in
  let w' := snd (write 1 s hello w) in
  0 <= 2 <= len hello
  /\ exists new, trace w' = trace w ++ new /\ accepted new = take_bytes 2 hello.
Proof.
  intros s w w'.
  assert (Hfds : distinct_fds s) by (repeat split; intro H; discriminate H).
  apply (@write_sends_data_in_order s hello w eq_refl Hfds 1 2 w').
  vm_compute. reflexivity.
Defined.

Lemma blocking_write_is_short_only_on_abort_witness :
  let s := port None (Some 1000000) None in
  let w := mkWorld 0 [] [] [mkRound 10 0 0 1] [] [Accept 3 2] [] in
  let w' := snd (write 1 s hello w) in
  2 < len hello
  /\ exists new, trace w' = trace w ++ new /\ ended_by_abort 10 new = true.
Proof.
  intros s w w'. split; [reflexivity|].
  assert (Hfds : distinct_fds s) by (repeat split; intro H; discriminate H).
  apply (@blocking_write_is_short_only_on_abort s hello w eq_refl Hfds 1 2 w').
  - intro H; discriminate H.
  - vm_compute. reflexivity.
  - reflexivity.
Defined.

Lemma write_raises_its_own_errors_only_witness :
  let s := port None (Some 1000000) None in
  let w := mkWorld 0 [] [] [] [] [Fail 3 errno.EIO "Input/output error"] [] in
  let e := SerialException "write failed: [Errno 5] Input/output error" in
  fst (write 1 s hello w) = Raise e /\ write_error e.
Proof.
  intros s w e. split; [vm_compute; reflexivity|].
  assert (Hfds : distinct_fds s) by (repeat split; intro H; discriminate H).
  apply (@write_raises_its_own_errors_only s hello w eq_refl Hfds 1 e
           (snd (write 1 s hello w))).
  vm_compute. reflexivity.
Defined.

Lemma write_timeout_modes_witness :
  let s := port None (Some 1000000) None in
  let w := mkWorld 0 [] [] [mkRound 10 0 0 1] [] [Accept 3 2] [] in
  let w' := snd (write 1 s hello w) in
  (forall d, _write_timeout s = Some d ->
     Ok 2 <> Blocked
     /\ exists new,
         trace w' = trace w ++ new /\ waits_bounded (Z.max 0 d) new = true)
  /\ (_write_timeout s = None ->
      Ok 2 <> Raise (SerialTimeoutException "Write timeout")
      /\ Ok 2 <> Raise (SerialException "write failed: Write timeout")).
Proof.
  intros s w w'.
  assert (Hfds : distinct_fds s) by (repeat split; intro H; discriminate H).
  apply (@write_timeout_modes s hello w eq_refl Hfds 1%nat (Ok 2) w').
  vm_compute. reflexivity.
Defined.

Lemma write_keeps_to_its_side_witness :
  let s := port None (Some 1000000) None in
  let w := mkWorld 0 (signals 1) [] [mkRound 10 0 1 1] [AB] [Accept 3 2] [] in
  let w' := snd (write 1 s hello w) in
  reads w' = [AB]
  /\ (exists extra, abort_read_pending w' = signals 1 ++ extra)
  /\ exists new, trace w' = trace w ++ new /\ device_reads s new = O.
Proof.
  intros s w w'.
  assert (Hfds : distinct_fds s) by (repeat split; intro H; discriminate H).
  apply (@write_keeps_to_its_side s hello w eq_refl Hfds 1 (Ok 2) w').
  vm_compute. reflexivity.
Defined.

Lemma write_retries_without_waiting_witness :
  let s := port None (Some 1000000) None in
  let w := mkWorld 0 [] [] [] []
             [Fail 3 errno.EAGAIN "Resource temporarily unavailable"; Accept 3 5]
             [] in
  let w' := snd (write 2 s hello w) in
  exists new,
    trace w' = trace w ++ new
    /\ starts_with_write new = true
    /\ no_wait_after_failure new = true.
Proof.
  intros s w w'.
  assert (Hfds : distinct_fds s) by (repeat split; intro H; discriminate H).
  apply (@write_retries_without_waiting s hello w eq_refl Hfds 2 (Ok 5) w').
  vm_compute. reflexivity.
Defined.

Lemma nothing_to_transfer_witness :
  let s := port None None None in
  let w := mkWorld 0 (signals 1) [] [mkRound 10 select.POLLIN 0 0] [AB] [] [] in
  read 0 s (-1) w = (Ok [], w) /\ write 0 s [] w = (Ok 0, w).
Proof.
  intros s w.
  apply (@nothing_to_transfer 0 s (-1) w); [reflexivity | lia].
Defined.
